(** * mcp-server-weather: a shallow embedding of [server.py]

    The server exposes three tools, [get_current_weather], [get_forecast]
    and [get_location].  Each builds an Open-Meteo URL with an f-string,
    hands it to [make_openmeteo_request], and returns either [json.dumps]
    of the decoded body or a fixed sentence.

    The development has two parts.  The definitions come first:
    - Python text as lists of code points, [int.__repr__], and the number
      pattern of the JSON scanner;
    - [PyFloat], the interface through which the program touches floats
      (it only prints and reads them), with the laws CPython guarantees;
    - [pyval], the values [response.json()] returns, with [truthy],
      [json_dumps] and [json_loads] after the [json] module of CPython
      (encoder, decoder and scanner with their default arguments);
    - [M], the effects of a tool call: the request handed to [client.get],
      the records logged, and the exception raised, if any;
    - the four functions of [server.py], and [raise_for_status] and
      [response.json()] after httpx;
    - how a URL is read back into path and parameters, and a float model on
      which the program runs.
    The lemmas and theorems follow: text, numbers, strings, the round trip
    of [json_loads] after [json_dumps], the fuel of the decoder, what the
    decoder builds, and then the fetcher and the tools.

    Left out of the model: the limits of the interpreter (recursion depth,
    the digit limit of [int]), the bytes of a response before they are
    decoded to text, and signals that are not instances of [Exception]
    (task cancellation), which [except Exception] lets through. *)

From Stdlib Require Import List NArith ZArith Bool Ascii String Lia.
From Stdlib Require Import Eqdep_dec.
From Stdlib Require Decimal DecimalFacts DecimalPos.
Import ListNotations.

Set Implicit Arguments.

(* ================================================================== *)
(** * Python text *)
(* ================================================================== *)

(** A Python [str] is a sequence of Unicode code points. *)
Definition pystr := list N.

(** String constants of the source, written as Rocq strings. *)
Definition lit (s : string) : pystr :=
  map N_of_ascii (list_ascii_of_string s).

(** The same, where an apostrophe in the Rocq text stands for the double
    quote (code point 34) of the Python text. *)
Definition qlit (s : string) : pystr :=
  map (fun c => if N.eqb c 39 then 34%N else c) (lit s).

(** [sep.join(parts)] *)
Fixpoint join (sep : pystr) (parts : list pystr) : pystr :=
  match parts with
  | [] => []
  | [p] => p
  | p :: rest => p ++ sep ++ join sep rest
  end.

(** [s.split(c)] for a one-character separator. *)
Fixpoint split_on (c : N) (s : pystr) : list pystr :=
  match s with
  | [] => [[]]
  | x :: t =>
      if N.eqb x c then [] :: split_on c t
      else match split_on c t with
           | h :: r => (x :: h) :: r
           | [] => [[x]]
           end
  end.

(** [s.partition(c)]: the text before the first [c] and the text after it. *)
Fixpoint partition_on (c : N) (s : pystr) : pystr * pystr :=
  match s with
  | [] => ([], [])
  | x :: t =>
      if N.eqb x c then ([], t)
      else let (a, b) := partition_on c t in (x :: a, b)
  end.

Fixpoint pystr_eqb (a b : pystr) : bool :=
  match a, b with
  | [], [] => true
  | x :: a', y :: b' => N.eqb x y && pystr_eqb a' b'
  | _, _ => false
  end.

(** [s.startswith(p)], returning the remainder on success. *)
Fixpoint strip_prefix (p s : pystr) : option pystr :=
  match p, s with
  | [], _ => Some s
  | x :: p', y :: s' => if N.eqb x y then strip_prefix p' s' else None
  | _ :: _, [] => None
  end.

(** [s[i:i+1] == c], with the text after that character. *)
Definition next_is (c : N) (s : pystr) : option pystr :=
  match s with
  | x :: t => if N.eqb x c then Some t else None
  | [] => None
  end.

(** ** Decimal digits and [int.__repr__] *)

Definition is_digit (c : N) : bool := (48 <=? c)%N && (c <=? 57)%N.

Fixpoint uint_chars (d : Decimal.uint) : pystr :=
  match d with
  | Decimal.Nil => []
  | Decimal.D0 d => 48%N :: uint_chars d
  | Decimal.D1 d => 49%N :: uint_chars d
  | Decimal.D2 d => 50%N :: uint_chars d
  | Decimal.D3 d => 51%N :: uint_chars d
  | Decimal.D4 d => 52%N :: uint_chars d
  | Decimal.D5 d => 53%N :: uint_chars d
  | Decimal.D6 d => 54%N :: uint_chars d
  | Decimal.D7 d => 55%N :: uint_chars d
  | Decimal.D8 d => 56%N :: uint_chars d
  | Decimal.D9 d => 57%N :: uint_chars d
  end.

(** The digits of a text known to consist of digits only. *)
Fixpoint chars_uint (s : pystr) : Decimal.uint :=
  match s with
  | [] => Decimal.Nil
  | c :: t =>
      let d := chars_uint t in
      if N.eqb c 48 then Decimal.D0 d else if N.eqb c 49 then Decimal.D1 d
      else if N.eqb c 50 then Decimal.D2 d else if N.eqb c 51 then Decimal.D3 d
      else if N.eqb c 52 then Decimal.D4 d else if N.eqb c 53 then Decimal.D5 d
      else if N.eqb c 54 then Decimal.D6 d else if N.eqb c 55 then Decimal.D7 d
      else if N.eqb c 56 then Decimal.D8 d else Decimal.D9 d
  end.

(** [int.__repr__]: decimal, a leading minus sign for negatives. *)
Definition int_repr (z : Z) : pystr :=
  match z with
  | Z0 => lit "0"
  | Zpos p => uint_chars (Pos.to_uint p)
  | Zneg p => 45%N :: uint_chars (Pos.to_uint p)
  end.

(** [int(text)] for a text matched by the integer group of the number
    pattern. *)
Definition int_of_text (s : pystr) : Z :=
  match next_is 45 s with
  | Some t => Z.opp (Z.of_N (N.of_uint (chars_uint t)))
  | None => Z.of_N (N.of_uint (chars_uint s))
  end.

(** ** The number pattern of the JSON scanner

    The decoder's number pattern has three groups: an integer part (an
    optional minus sign, then either a single 0 or a nonzero digit followed
    by any digits), an optional fraction (a dot and at least one digit) and
    an optional exponent (e or E, an optional sign, at least one digit).
    [match_number s] gives the three groups and the unread remainder. *)

Fixpoint span_digits (s : pystr) : pystr * pystr :=
  match s with
  | c :: t => if is_digit c then let (ds, r) := span_digits t in (c :: ds, r)
              else ([], s)
  | [] => ([], [])
  end.

Definition match_integer (s : pystr) : option (pystr * pystr) :=
  let (sign, s1) := match next_is 45 s with
                    | Some t => ([45%N], t)
                    | None => ([], s)
                    end in
  match s1 with
  | c :: t =>
      if N.eqb c 48 then Some (sign ++ [c], t)
      else if is_digit c then
        let (ds, r) := span_digits t in Some (sign ++ c :: ds, r)
      else None
  | [] => None
  end.

Definition match_frac (s : pystr) : pystr * pystr :=
  match next_is 46 s with
  | Some t =>
      match span_digits t with
      | ([], _) => ([], s)
      | (ds, r) => (46%N :: ds, r)
      end
  | None => ([], s)
  end.

Definition match_exp (s : pystr) : pystr * pystr :=
  match s with
  | e :: t =>
      if N.eqb e 101 || N.eqb e 69 then
        let (sign, t1) := match t with
                          | c :: t' => if N.eqb c 43 || N.eqb c 45
                                       then ([c], t') else ([], t)
                          | [] => ([], t)
                          end in
        match span_digits t1 with
        | ([], _) => ([], s)
        | (ds, r) => (e :: sign ++ ds, r)
        end
      else ([], s)
  | [] => ([], s)
  end.

Definition match_number (s : pystr) : option (pystr * pystr * pystr * pystr) :=
  match match_integer s with
  | None => None
  | Some (integer, r1) =>
      let (frac, r2) := match_frac r1 in
      let (exp, r3) := match_exp r2 in
      Some (integer, frac, exp, r3)
  end.

Definition is_nil {A} (l : list A) : bool :=
  match l with [] => true | _ => false end.

(** A text that the pattern matches entirely, with a fraction or an
    exponent: what the scanner hands to [float]. *)
Definition is_float_literal (s : pystr) : bool :=
  match match_number s with
  | Some (_, frac, exp, []) => negb (is_nil frac && is_nil exp)
  | _ => false
  end.

(** ** The characters of a printed number *)

(** Digits, signs, the dot, the exponent mark and the letters of [nan] and
    [inf]. *)
Definition num_char (c : N) : bool :=
  is_digit c || N.eqb c 43 || N.eqb c 45 || N.eqb c 46 || N.eqb c 69
  || N.eqb c 101 || N.eqb c 97 || N.eqb c 102 || N.eqb c 105 || N.eqb c 110.

(** What may follow a number without being read as part of it. *)
Definition number_stop (rest : pystr) : bool :=
  match rest with
  | [] => true
  | c :: _ => negb (is_digit c || N.eqb c 46 || N.eqb c 69 || N.eqb c 101)
  end.

(** [c not in s] *)
Definition free_of (c : N) (s : pystr) : bool :=
  forallb (fun x => negb (N.eqb x c)) s.

(* ================================================================== *)
(** * Floats *)
(* ================================================================== *)

(** The program never computes with a float: it prints one into a URL or
    into JSON text, and the decoder reads one from JSON text.  These
    conversions are the interface. *)

Inductive float_class := FNaN | FPosInf | FNegInf | FFinite.

Class PyFloat := {
  pyfloat : Type;
  float_repr : pyfloat -> pystr;        (* float.__repr__ *)
  float_of_str : pystr -> pyfloat;      (* float(text), text a number literal *)
  float_classify : pyfloat -> float_class;
  float_is_zero : pyfloat -> bool;      (* f == 0.0 *)
  float_nan : pyfloat;                  (* float('nan') *)
  float_inf : pyfloat;                  (* float('inf') *)
  float_neg_inf : pyfloat               (* float('-inf') *)
}.

(** What CPython guarantees of these conversions: [repr] of a finite float
    is a decimal literal with a fraction or an exponent, [float] reads it
    back to the same float, and the three special values print as [nan],
    [inf] and [-inf]. *)
Class PyFloatLaws (F : PyFloat) : Prop := {
  repr_finite : forall f, float_classify f = FFinite ->
      is_float_literal (float_repr f) = true;
  of_repr : forall f, float_classify f = FFinite ->
      float_of_str (float_repr f) = f;
  repr_nan : forall f, float_classify f = FNaN -> float_repr f = lit "nan";
  repr_inf : forall f, float_classify f = FPosInf -> float_repr f = lit "inf";
  repr_neg_inf : forall f, float_classify f = FNegInf ->
      float_repr f = lit "-inf";
  inf_unique : forall f, float_classify f = FPosInf -> f = float_inf;
  neg_inf_unique : forall f, float_classify f = FNegInf -> f = float_neg_inf
}.

(* ================================================================== *)
(** * JSON values, [json.dumps] and [json.loads] *)
(* ================================================================== *)

Section Json.
Context {F : PyFloat}.

(** What [response.json()] can return: [None], a [bool], an [int], a
    [float], a [str], a [list], or a [dict] with [str] keys (kept in
    insertion order, as Python dicts are). *)
#[local] Unset Elimination Schemes.
Inductive pyval :=
| PyNone
| PyBool (b : bool)
| PyInt (z : Z)
| PyFloat_ (f : pyfloat)
| PyStr (s : pystr)
| PyList (l : list pyval)
| PyDict (d : list (pystr * pyval)).
#[local] Set Elimination Schemes.

(** Python truthiness, the test behind [if not data]. *)
Definition truthy (o : pyval) : bool :=
  match o with
  | PyNone => false
  | PyBool b => b
  | PyInt z => negb (Z.eqb z 0)
  | PyFloat_ f => negb (float_is_zero f)
  | PyStr s => negb (is_nil s)
  | PyList l => negb (is_nil l)
  | PyDict d => negb (is_nil d)
  end.

(** ** Encoding ([json.dumps] with its default arguments) *)

Definition hex_digit (n : N) : N :=
  if (n <? 10)%N then (48 + n)%N else (87 + n)%N.

(** ['{0:04x}'.format(n)] for [n < 0x10000]. *)
Definition hex4 (n : N) : pystr :=
  [hex_digit (N.shiftr n 12 mod 16); hex_digit (N.shiftr n 8 mod 16);
   hex_digit (N.shiftr n 4 mod 16); hex_digit (n mod 16)].

(** The replacement [encode_basestring_ascii] makes for one character:
    printable ASCII other than the quote and the backslash is kept, the
    rest is escaped, code points above the BMP as a surrogate pair. *)
Definition encode_char (c : N) : pystr :=
  if N.eqb c 92 then [92; 92]%N                       (* backslash *)
  else if N.eqb c 34 then [92; 34]%N                  (* quote *)
  else if (32 <=? c)%N && (c <=? 126)%N then [c]
  else if N.eqb c 8 then [92; 98]%N                   (* escape b *)
  else if N.eqb c 12 then [92; 102]%N                 (* escape f *)
  else if N.eqb c 10 then [92; 110]%N                 (* escape n *)
  else if N.eqb c 13 then [92; 114]%N                 (* escape r *)
  else if N.eqb c 9 then [92; 116]%N                  (* escape t *)
  else if (c <? 65536)%N then 92%N :: 117%N :: hex4 c
  else
    let n := (c - 65536)%N in
    let s1 := N.lor 55296 (N.land (N.shiftr n 10) 1023) in
    let s2 := N.lor 56320 (N.land n 1023) in
    (92%N :: 117%N :: hex4 s1) ++ (92%N :: 117%N :: hex4 s2).

Definition encode_basestring_ascii (s : pystr) : pystr :=
  34%N :: flat_map encode_char s ++ [34%N].

(** [floatstr]: the three special values get JSON-specific names, every
    other float its [repr]. *)
Definition floatstr (f : pyfloat) : pystr :=
  match float_classify f with
  | FNaN => lit "NaN"
  | FPosInf => lit "Infinity"
  | FNegInf => lit "-Infinity"
  | FFinite => float_repr f
  end.

(** [json.dumps(o)]: item separator [", "], key separator [": "],
    ASCII-only output, keys in dict order. *)
Fixpoint json_dumps (o : pyval) : pystr :=
  match o with
  | PyNone => lit "null"
  | PyBool true => lit "true"
  | PyBool false => lit "false"
  | PyInt z => int_repr z
  | PyFloat_ f => floatstr f
  | PyStr s => encode_basestring_ascii s
  | PyList l =>
      match l with
      | [] => lit "[]"
      | _ => lit "[" ++ join (lit ", ") (map json_dumps l) ++ lit "]"
      end
  | PyDict d =>
      match d with
      | [] => lit "{}"
      | _ => lit "{"
             ++ join (lit ", ")
                  (map (fun kv => encode_basestring_ascii (fst kv)
                                  ++ lit ": " ++ json_dumps (snd kv)) d)
             ++ lit "}"
      end
  end.

(** ** Decoding ([json.loads] with its default arguments) *)

Definition is_ws (c : N) : bool :=
  N.eqb c 32 || N.eqb c 9 || N.eqb c 10 || N.eqb c 13.

Fixpoint skip_ws (s : pystr) : pystr :=
  match s with
  | c :: t => if is_ws c then skip_ws t else s
  | [] => []
  end.

Definition hex_val (c : N) : option N :=
  if is_digit c then Some (c - 48)%N
  else if (97 <=? c)%N && (c <=? 102)%N then Some (c - 87)%N
  else if (65 <=? c)%N && (c <=? 70)%N then Some (c - 55)%N
  else None.

(** [_decode_uXXXX]: exactly four hexadecimal digits. *)
Definition decode_uXXXX (s : pystr) : option (N * pystr) :=
  match s with
  | a :: b :: c :: d :: r =>
      match hex_val a, hex_val b, hex_val c, hex_val d with
      | Some a, Some b, Some c, Some d =>
          Some ((((a * 16 + b) * 16 + c) * 16 + d)%N, r)
      | _, _, _, _ => None
      end
  | _ => None
  end.

(** The [BACKSLASH] table of the decoder. *)
Definition backslash (esc : N) : option N :=
  if N.eqb esc 34 then Some 34%N
  else if N.eqb esc 92 then Some 92%N
  else if N.eqb esc 47 then Some 47%N
  else if N.eqb esc 98 then Some 8%N
  else if N.eqb esc 102 then Some 12%N
  else if N.eqb esc 110 then Some 10%N
  else if N.eqb esc 114 then Some 13%N
  else if N.eqb esc 116 then Some 9%N
  else None.

Definition is_high_surrogate (c : N) : bool :=
  (55296 <=? c)%N && (c <=? 56319)%N.

Definition is_low_surrogate (c : N) : bool :=
  (56320 <=? c)%N && (c <=? 57343)%N.

(** What [scanstring] does after an escape that decoded to [uni], with [r2]
    the text after it: a high surrogate followed by an escaped low
    surrogate is joined with it into one code point, and a high surrogate
    followed by a malformed escape is an error. *)
Definition join_surrogates (uni : N) (r2 : pystr) : option (N * pystr) :=
  if is_high_surrogate uni then
    match strip_prefix [92; 117]%N r2 with
    | Some r3 =>
        match decode_uXXXX r3 with
        | None => None
        | Some (uni2, r4) =>
            if is_low_surrogate uni2
            then Some ((65536 + N.lor (N.shiftl (uni - 55296) 10)
                                      (uni2 - 56320))%N, r4)
            else Some (uni, r2)
        end
    | None => Some (uni, r2)
    end
  else Some (uni, r2).

(** [scanstring], strict mode, entered after the opening quote: the decoded
    text and the input after the closing quote.  Every turn of the loop
    consumes input, so the length of the input is fuel enough. *)
Fixpoint scan_chars (fuel : nat) (s : pystr) : option (pystr * pystr) :=
  match fuel with
  | O => None
  | S fuel =>
      match s with
      | [] => None
      | c :: r =>
          if N.eqb c 34 then Some ([], r)
          else if N.eqb c 92 then
            match r with
            | [] => None
            | esc :: r1 =>
                if N.eqb esc 117 then
                  match decode_uXXXX r1 with
                  | None => None
                  | Some (uni, r2) =>
                      match join_surrogates uni r2 with
                      | None => None
                      | Some (ch, r5) =>
                          match scan_chars fuel r5 with
                          | Some (t, r6) => Some (ch :: t, r6)
                          | None => None
                          end
                      end
                  end
                else
                  match backslash esc with
                  | None => None
                  | Some ch =>
                      match scan_chars fuel r1 with
                      | Some (t, r6) => Some (ch :: t, r6)
                      | None => None
                      end
                  end
            end
          else if (c <? 32)%N then None
          else
            match scan_chars fuel r with
            | Some (t, r6) => Some (c :: t, r6)
            | None => None
            end
      end
  end.

Definition scanstring (s : pystr) : option (pystr * pystr) :=
  scan_chars (List.length s) s.

(** One more decoded character in front of what the rest of the loop
    reads. *)
Definition scan_next (fuel : nat) (ch : N) (R : pystr)
  : option (pystr * pystr) :=
  match scan_chars fuel R with
  | Some (t, r) => Some (ch :: t, r)
  | None => None
  end.

(** [dict(pairs)]: a repeated key keeps its first position and takes the
    last value. *)
Fixpoint dict_set (k : pystr) (v : pyval) (d : list (pystr * pyval))
  : list (pystr * pyval) :=
  match d with
  | [] => [(k, v)]
  | (k', v') :: d' =>
      if pystr_eqb k k' then (k', v) :: d' else (k', v') :: dict_set k v d'
  end.

Definition dict_of_pairs (pairs : list (pystr * pyval))
  : list (pystr * pyval) :=
  fold_left (fun d kv => dict_set (fst kv) (snd kv) d) pairs [].

(** The branches of [scan_once] that do not recurse: the three constants,
    then a number ([int] without fraction and exponent, [float] with one),
    then the three names of special floats. *)
Definition scan_atom (s : pystr) : option (pyval * pystr) :=
  match strip_prefix (lit "null") s,
        strip_prefix (lit "true") s,
        strip_prefix (lit "false") s with
  | Some r', _, _ => Some (PyNone, r')
  | _, Some r', _ => Some (PyBool true, r')
  | _, _, Some r' => Some (PyBool false, r')
  | None, None, None =>
      match match_number s with
      | Some (integer, frac, exp, r') =>
          if is_nil frac && is_nil exp
          then Some (PyInt (int_of_text integer), r')
          else Some (PyFloat_ (float_of_str (integer ++ frac ++ exp)), r')
      | None =>
          match strip_prefix (lit "NaN") s,
                strip_prefix (lit "Infinity") s,
                strip_prefix (lit "-Infinity") s with
          | Some r', _, _ => Some (PyFloat_ float_nan, r')
          | _, Some r', _ => Some (PyFloat_ float_inf, r')
          | _, _, Some r' => Some (PyFloat_ float_neg_inf, r')
          | None, None, None => None
          end
      end
  end.

(** The scanner: [scan_once] reads one value, [array_items] is the loop of
    [JSONArray] and [object_items] the loop of [JSONObject] (entered after
    the opening quote of a key).  Python recurses and loops on an index into
    the text; here the unread text is passed along and [fuel] bounds the
    nesting plus the number of items. *)
Fixpoint scan_once (fuel : nat) (s : pystr) : option (pyval * pystr) :=
  match fuel with
  | O => None
  | S fuel =>
      match s with
      | [] => None
      | c :: r =>
          if N.eqb c 34 then
            match scanstring r with
            | Some (t, r') => Some (PyStr t, r')
            | None => None
            end
          else if N.eqb c 123 then
            match next_is 125 (skip_ws r), next_is 34 (skip_ws r) with
            | Some r', _ => Some (PyDict [], r')
            | None, Some r' =>
                match object_items fuel r' with
                | Some (pairs, r'') => Some (PyDict (dict_of_pairs pairs), r'')
                | None => None
                end
            | None, None => None
            end
          else if N.eqb c 91 then
            match next_is 93 (skip_ws r) with
            | Some r' => Some (PyList [], r')
            | None =>
                match array_items fuel (skip_ws r) with
                | Some (values, r'') => Some (PyList values, r'')
                | None => None
                end
            end
          else scan_atom s
      end
  end

with array_items (fuel : nat) (s : pystr) : option (list pyval * pystr) :=
  match fuel with
  | O => None
  | S fuel =>
      match scan_once fuel s with
      | None => None
      | Some (value, r) =>
          match next_is 93 (skip_ws r), next_is 44 (skip_ws r) with
          | Some r', _ => Some ([value], r')
          | None, Some r' =>
              match array_items fuel (skip_ws r') with
              | Some (values, r'') => Some (value :: values, r'')
              | None => None
              end
          | None, None => None
          end
      end
  end

with object_items (fuel : nat) (s : pystr)
  : option (list (pystr * pyval) * pystr) :=
  match fuel with
  | O => None
  | S fuel =>
      match scanstring s with
      | None => None
      | Some (key, r) =>
          match next_is 58 (skip_ws r) with
          | None => None
          | Some r1 =>
              match scan_once fuel (skip_ws r1) with
              | None => None
              | Some (value, r2) =>
                  match next_is 125 (skip_ws r2), next_is 44 (skip_ws r2) with
                  | Some r3, _ => Some ([(key, value)], r3)
                  | None, Some r3 =>
                      match next_is 34 (skip_ws r3) with
                      | Some r4 =>
                          match object_items fuel r4 with
                          | Some (pairs, r5) => Some ((key, value) :: pairs, r5)
                          | None => None
                          end
                      | None => None
                      end
                  | None, None => None
                  end
              end
          end
      end
  end.

(** [json.loads(s)] for a [str]: a leading byte-order mark is refused, one
    value is read between optional whitespace, and nothing may follow. *)
Definition json_loads (s : pystr) : option pyval :=
  match next_is 65279 s with
  | Some _ => None
  | None =>
      match scan_once (2 * List.length s + 2) (skip_ws s) with
      | Some (v, r) => if is_nil (skip_ws r) then Some v else None
      | None => None
      end
  end.

(** ** The values a JSON document decodes to

    A [str] holds code points below 0x110000.  The decoder joins an escaped
    high surrogate with an escaped low surrogate that follows it, so no
    decoded text has a high surrogate directly before a low one.  A dict has
    each key once.  JSON has no NaN.  These are the values [json_dumps] and
    [json_loads] round-trip on. *)

Definition starts_low (s : pystr) : bool :=
  match s with
  | d :: _ => is_low_surrogate d
  | [] => false
  end.

Fixpoint wf_str (s : pystr) : bool :=
  match s with
  | [] => true
  | c :: t =>
      (c <? 1114112)%N && negb (is_high_surrogate c && starts_low t)
      && wf_str t
  end.

Fixpoint distinct (keys : list pystr) : bool :=
  match keys with
  | [] => true
  | k :: t => negb (existsb (pystr_eqb k) t) && distinct t
  end.

Fixpoint wf_json (o : pyval) : bool :=
  match o with
  | PyNone | PyBool _ | PyInt _ => true
  | PyFloat_ f =>
      match float_classify f with FNaN => false | _ => true end
  | PyStr s => wf_str s
  | PyList l => forallb wf_json l
  | PyDict d =>
      distinct (map fst d)
      && forallb (fun kv => wf_str (fst kv) && wf_json (snd kv)) d
  end.

(** The two halves of [wf_json]: texts and keys as the decoder builds
    them, and no NaN. *)
Fixpoint wf_shape (o : pyval) : bool :=
  match o with
  | PyNone | PyBool _ | PyInt _ | PyFloat_ _ => true
  | PyStr s => wf_str s
  | PyList l => forallb wf_shape l
  | PyDict d =>
      distinct (map fst d)
      && forallb (fun kv => wf_str (fst kv) && wf_shape (snd kv)) d
  end.

Fixpoint nan_free (o : pyval) : bool :=
  match o with
  | PyNone | PyBool _ | PyInt _ | PyStr _ => true
  | PyFloat_ f =>
      match float_classify f with FNaN => false | _ => true end
  | PyList l => forallb nan_free l
  | PyDict d => forallb (fun kv => nan_free (snd kv)) d
  end.

(** A Unicode scalar value: a code point that is not a surrogate.  The
    text of a response is made of these. *)
Definition is_scalar (c : N) : bool :=
  (c <? 1114112)%N && negb (is_high_surrogate c)
  && negb (is_low_surrogate c).

(** The text starts with the escape of a low surrogate. *)
Definition low_escape (s : pystr) : bool :=
  match strip_prefix [92; 117]%N s with
  | Some r3 =>
      match decode_uXXXX r3 with
      | Some (u2, _) => is_low_surrogate u2
      | None => false
      end
  | None => false
  end.

(** The fuel [scan_once] needs to read back what [json_dumps] wrote. *)
Fixpoint fuel_of (o : pyval) : nat :=
  match o with
  | PyList l => S (fold_right (fun v n => S (Nat.max (fuel_of v) n)) O l)
  | PyDict d =>
      S (fold_right (fun kv n => S (Nat.max (fuel_of (snd kv)) n)) O d)
  | _ => 1
  end.

(** The characters a value printed by [json_dumps] can start with: the
    quote, the minus sign, a digit, I, N, the opening bracket, f, n, t and
    the opening brace. *)
Definition value_start (c : N) : bool :=
  is_digit c || existsb (N.eqb c) [34; 45; 73; 78; 91; 102; 110; 116; 123]%N.

(** What follows a value in the output of [json_dumps]: nothing, a comma,
    or a closing bracket or brace. *)
Definition delim_next (rest : pystr) : bool :=
  match rest with
  | [] => true
  | c :: _ => N.eqb c 44 || N.eqb c 93 || N.eqb c 125
  end.

(** The scanner reads a value back from its printed form, whatever
    delimiter follows. *)
Definition reads_back (o : pyval) : Prop :=
  forall fuel rest, (fuel_of o <= fuel)%nat -> delim_next rest = true ->
    scan_once fuel (json_dumps o ++ rest) = Some (o, rest).

End Json.

(* ================================================================== *)
(** * The effects of a tool call *)
(* ================================================================== *)

(** The exceptions that can be raised under the [try] of
    [make_openmeteo_request].  All of them are instances of [Exception]:
    httpx's request errors, its status error, and the two errors of
    [response.json()]. *)
Inductive exn :=
| ConnectError (detail : pystr)        (* DNS failure, connection refused *)
| TimeoutException (detail : pystr)    (* connect, read, write or pool timeout *)
| OtherRequestError (detail : pystr)   (* any other error of [client.get] *)
| HTTPStatusError (status : Z)         (* raised by [raise_for_status] *)
| JSONDecodeError                      (* the body is not JSON *)
| UnicodeDecodeError.                  (* the body is not text *)

Inductive outcome (A : Type) :=
| Return (a : A)
| Raise (e : exn).
Arguments Return {A} a.
Arguments Raise {A} e.

Inductive Level := DEBUG | INFO | WARNING | ERROR | CRITICAL.

(** A log record keeps the format string and its argument, as [logging]
    does. *)
Record LogRecord := mkLogRecord {
  levelname : Level;
  msg : pystr;
  arg : exn
}.

Inductive Body :=
| Decoded (text : pystr)     (* the content, decoded to text *)
| Undecodable.               (* content in no encoding the decoder accepts *)

Record Response := mkResponse {
  status_code : Z;
  content : Body
}.

Section Server.
Context {F : PyFloat}.

Record Request := mkRequest {
  req_url : pystr;
  req_headers : list (pystr * pystr);
  req_timeout : pyfloat
}.

(** What is outside the process: the answer of the network to a GET. *)
Definition Network := Request -> outcome Response.

(** What a call leaves behind: the requests it issued and the records it
    logged. *)
Record World := mkWorld {
  requested : list Request;
  logged : list LogRecord
}.

(** A computation that may issue requests, log and raise. *)
Definition M (A : Type) := Network -> World -> outcome A * World.

Definition ret {A} (a : A) : M A := fun _ w => (Return a, w).

Definition raise {A} (e : exn) : M A := fun _ w => (Raise e, w).

Definition bind {A B} (m : M A) (k : A -> M B) : M B :=
  fun net w =>
    match m net w with
    | (Return a, w') => k a net w'
    | (Raise e, w') => (Raise e, w')
    end.

(** [try: body except Exception as e: handler(e)] *)
Definition try_except {A} (body : M A) (handler : exn -> M A) : M A :=
  fun net w =>
    match body net w with
    | (Return a, w') => (Return a, w')
    | (Raise e, w') => handler e net w'
    end.

Notation "x <- m ;; k" := (bind m (fun x => k))
  (at level 61, m at next level, right associativity).
Notation "m ;; k" := (bind m (fun _ => k))
  (at level 61, right associativity).

(** [await client.get(url, headers=headers, timeout=timeout)] *)
Definition client_get (url : pystr) (headers : list (pystr * pystr))
    (timeout : pyfloat) : M Response :=
  fun net w =>
    let req := mkRequest url headers timeout in
    (net req, mkWorld (requested w ++ [req]) (logged w)).

(** [response.is_success] and [response.raise_for_status()] of httpx. *)
Definition is_success (r : Response) : bool :=
  (200 <=? status_code r)%Z && (status_code r <=? 299)%Z.

Definition raise_for_status (r : Response) : M unit :=
  if is_success r then ret tt else raise (HTTPStatusError (status_code r)).

(** [response.json()] *)
Definition response_json (r : Response) : M pyval :=
  match content r with
  | Undecodable => raise UnicodeDecodeError
  | Decoded text =>
      match json_loads text with
      | Some v => ret v
      | None => raise JSONDecodeError
      end
  end.

(** [logger.error(msg, e)] *)
Definition logger_error (fmt : pystr) (e : exn) : M unit :=
  fun _ w =>
    (Return tt, mkWorld (requested w) (logged w ++ [mkLogRecord ERROR fmt e])).

(** A parameter with a default value: [None] when the caller omits it. *)
Definition default_arg {A} (default : A) (given : option A) : A :=
  match given with Some a => a | None => default end.

(** The value of a parameter annotated [float]: the caller passes a float,
    or an int that the f-string prints as it is. *)
Inductive pynum :=
| NInt (z : Z)
| NFloat (f : pyfloat).

(** [f"{x}"] for a number. *)
Definition format_num (x : pynum) : pystr :=
  match x with
  | NInt z => int_repr z
  | NFloat f => float_repr f
  end.

(* ================================================================== *)
(** * [server.py] *)
(* ================================================================== *)

Definition WEATHER_OPENMETEO_API_BASE : pystr :=
  lit "https://api.open-meteo.com/v1".
Definition GEOCODING_OPENMATEO_API_BASE : pystr :=
  lit "https://geocoding-api.open-meteo.com/v1".
Definition USER_AGENT : pystr := lit "weather-app/1.0".

(** The client of [async with httpx.AsyncClient() as client] lives for the
    one request and has no other effect. *)
Definition make_openmeteo_request (url : pystr) : M pyval :=
  let headers := [(lit "User-Agent", USER_AGENT);
                  (lit "Accept", lit "application/json")] in
  try_except
    (response <- client_get url headers (float_of_str (lit "30.0")) ;;
     raise_for_status response ;;
     response_json response)
    (fun e =>
       logger_error (lit "Open-Meteo request failed: %s") e ;;
       ret PyNone).

(** The f-string bound to [url] in [get_current_weather]. *)
Definition current_weather_url (latitude longitude : pynum) : pystr :=
  WEATHER_OPENMETEO_API_BASE ++ lit "/forecast?latitude="
  ++ format_num latitude ++ lit "&longitude=" ++ format_num longitude
  ++ lit "&current=temperature_2m,is_day,showers,cloud_cover,wind_speed_10m,wind_direction_10m,pressure_msl,snowfall,precipitation,relative_humidity_2m,apparent_temperature,rain,weather_code,surface_pressure,wind_gusts_10m".

Definition get_current_weather (latitude longitude : pynum) : M pystr :=
  let url := current_weather_url latitude longitude in
  data <- make_openmeteo_request url ;;
  if negb (truthy data) then
    ret (lit "Unable to fetch current weather data for this location.")
  else ret (json_dumps data).

(** The f-string bound to [url] in [get_forecast]. *)
Definition forecast_url (latitude longitude : pynum) (days : Z) : pystr :=
  WEATHER_OPENMETEO_API_BASE ++ lit "/forecast?latitude="
  ++ format_num latitude ++ lit "&longitude=" ++ format_num longitude
  ++ lit "&forecast_days=" ++ int_repr days
  ++ lit "&daily=temperature_2m_max,temperature_2m_min,precipitation_sum,rain_sum,snowfall_sum,wind_speed_10m_max,wind_gusts_10m_max,wind_direction_10m_dominant,weathercode,sunrise,sunset&timezone=auto".

(** [days: int = 7] *)
Definition get_forecast (latitude longitude : pynum) (days : option Z)
  : M pystr :=
  let days := default_arg 7%Z days in
  let url := forecast_url latitude longitude days in
  data <- make_openmeteo_request url ;;
  if negb (truthy data) then
    ret (lit "Unable to fetch forecasted weather data for this location.")
  else ret (json_dumps data).

(** The f-string bound to [url] in [get_location]. *)
Definition location_url (search_term : pystr) (count : Z) : pystr :=
  GEOCODING_OPENMATEO_API_BASE ++ lit "/search?name=" ++ search_term
  ++ lit "&count=" ++ int_repr count.

(** [count: int = 10] *)
Definition get_location (search_term : pystr) (count : option Z) : M pystr :=
  let count := default_arg 10%Z count in
  let url := location_url search_term count in
  data <- make_openmeteo_request url ;;
  if negb (truthy data) then
    ret (lit "Unable to fetch location data for " ++ search_term)
  else ret (json_dumps data).

(** ** Names for what the theorems observe *)

(** The one request [make_openmeteo_request url] issues. *)
Definition request_for (url : pystr) : Request :=
  mkRequest url
    [(lit "User-Agent", USER_AGENT); (lit "Accept", lit "application/json")]
    (float_of_str (lit "30.0")).

(** The world after the request was issued and nothing was logged. *)
Definition after_request (url : pystr) (w : World) : World :=
  mkWorld (requested w ++ [request_for url]) (logged w).

(** The world after the request was issued and its failure [e] logged. *)
Definition after_failure (url : pystr) (e : exn) (w : World) : World :=
  mkWorld (requested w ++ [request_for url])
    (logged w ++ [mkLogRecord ERROR (lit "Open-Meteo request failed: %s") e]).

(** Each tool is its fetch followed by the choice between the sentence and
    the serialized data. *)
Definition answer (sentence : pystr) (data : pyval) : pystr :=
  if negb (truthy data) then sentence else json_dumps data.

End Server.

Notation "x <- m ;; k" := (bind m (fun x => k))
  (at level 61, m at next level, right associativity).

(* ================================================================== *)
(** * Reading a URL back *)
(* ================================================================== *)

(** The path and the query parameters of a URL, split the way a server
    splits them (no percent-decoding): the query starts after the first
    question mark, parameters are separated by ampersands, a name ends at
    the first equals sign. *)
Definition url_path (url : pystr) : pystr := fst (partition_on 63 url).

Definition url_query (url : pystr) : pystr := snd (partition_on 63 url).

Definition query_params (url : pystr) : list (pystr * pystr) :=
  map (partition_on 61) (split_on 38 (url_query url)).

Fixpoint assoc (k : pystr) (l : list (pystr * pystr)) : option pystr :=
  match l with
  | [] => None
  | (k', v) :: l' => if pystr_eqb k k' then Some v else assoc k l'
  end.

Definition query_param (name : string) (url : pystr) : option pystr :=
  assoc (lit name) (query_params url).

(** The query text that lists the given parameters, and the parameters
    that can be read back from it: no ampersand in a name or a value, no
    equals sign in a name. *)
Definition render_query (params : list (pystr * pystr)) : pystr :=
  join [38%N] (map (fun kv => fst kv ++ 61%N :: snd kv) params).

Definition query_safe (kv : pystr * pystr) : bool :=
  free_of 38 (fst kv) && free_of 61 (fst kv) && free_of 38 (snd kv).

(** The comma-separated items of a parameter. *)
Definition query_fields (name : string) (url : pystr) : option (list pystr) :=
  option_map (split_on 44) (query_param name url).

(* ================================================================== *)
(** * A float model to run the program on *)
(* ================================================================== *)

(** Floats told apart by what they print: a finite float is the decimal
    literal that is its [repr].  This is enough to run the program on
    concrete inputs; it does no rounding. *)
Inductive text_float :=
| TNaN
| TInf (negative : bool)
| TFinite (text : pystr) (ok : is_float_literal text = true).

Definition text_float_repr (f : text_float) : pystr :=
  match f with
  | TNaN => lit "nan"
  | TInf false => lit "inf"
  | TInf true => lit "-inf"
  | TFinite text _ => text
  end.

Definition text_float_of_str (s : pystr) : text_float :=
  match is_float_literal s as b return is_float_literal s = b -> text_float with
  | true => fun ok => TFinite s ok
  | false => fun _ => TNaN
  end eq_refl.

Definition text_float_classify (f : text_float) : float_class :=
  match f with
  | TNaN => FNaN
  | TInf false => FPosInf
  | TInf true => FNegInf
  | TFinite _ _ => FFinite
  end.

(** Zero when every digit of the mantissa is a zero. *)
Fixpoint mantissa_is_zero (s : pystr) : bool :=
  match s with
  | [] => true
  | c :: t =>
      if N.eqb c 101 || N.eqb c 69 then true
      else if is_digit c && negb (N.eqb c 48) then false
      else mantissa_is_zero t
  end.

Definition text_float_is_zero (f : text_float) : bool :=
  match f with
  | TFinite text _ => mantissa_is_zero text
  | _ => false
  end.

#[export] Instance TextFloat : PyFloat := {
  pyfloat := text_float;
  float_repr := text_float_repr;
  float_of_str := text_float_of_str;
  float_classify := text_float_classify;
  float_is_zero := text_float_is_zero;
  float_nan := TNaN;
  float_inf := TInf false;
  float_neg_inf := TInf true
}.

(** The float written [text] in Python source. *)
Definition fl (text : string) : text_float := text_float_of_str (lit text).


(* ================================================================== *)
(** * The calls a host can make *)
(* ================================================================== *)

Section Calls.
Context {F : PyFloat}.

(** One constructor for each function registered with [@mcp.tool()], with
    its parameters; a parameter with a default may be left out. *)
Inductive tool_call :=
| CurrentWeather (latitude longitude : pynum)
| Forecast (latitude longitude : pynum) (days : option Z)
| Location (search_term : pystr) (count : option Z).

Definition run_call (c : tool_call) : M pystr :=
  match c with
  | CurrentWeather latitude longitude =>
      get_current_weather latitude longitude
  | Forecast latitude longitude days => get_forecast latitude longitude days
  | Location search_term count => get_location search_term count
  end.

(** The URL the called function builds. *)
Definition call_url (c : tool_call) : pystr :=
  match c with
  | CurrentWeather latitude longitude =>
      current_weather_url latitude longitude
  | Forecast latitude longitude days =>
      forecast_url latitude longitude (default_arg 7%Z days)
  | Location search_term count =>
      location_url search_term (default_arg 10%Z count)
  end.

(** The sentence the called function returns under [if not data]. *)
Definition call_sentence (c : tool_call) : pystr :=
  match c with
  | CurrentWeather _ _ =>
      lit "Unable to fetch current weather data for this location."
  | Forecast _ _ _ =>
      lit "Unable to fetch forecasted weather data for this location."
  | Location search_term _ =>
      lit "Unable to fetch location data for " ++ search_term
  end.

(** The network answered with a success status and a body that decodes to
    the JSON value [x]. *)
Definition answers_json (o : outcome Response) (x : pyval) : Prop :=
  exists r text,
    o = Return r /\ is_success r = true /\ content r = Decoded text
    /\ json_loads text = Some x.

End Calls.


Unset Implicit Arguments.

(* ================================================================== *)
(** * Text *)
(* ================================================================== *)

Section TextFacts.

Lemma pystr_eqb_eq (a b : pystr) : pystr_eqb a b = true <-> a = b.
Proof.
  revert b. induction a as [|x a IH]; intros [|y b]; simpl;
    try (split; [discriminate|discriminate]); try tauto.
  rewrite andb_true_iff, N.eqb_eq, IH.
  split; [intros [-> ->]; reflexivity | intros [= -> ->]; auto].
Qed.

Lemma pystr_eqb_refl (a : pystr) : pystr_eqb a a = true.
Proof. now apply pystr_eqb_eq. Qed.

Lemma free_of_app (c : N) (a b : pystr) :
  free_of c (a ++ b) = free_of c a && free_of c b.
Proof. apply forallb_app. Qed.

Lemma partition_on_app (c : N) (a b : pystr) :
  free_of c a = true -> partition_on c (a ++ c :: b) = (a, b).
Proof.
  induction a as [|x a IH]; simpl.
  - now rewrite N.eqb_refl.
  - rewrite andb_true_iff, negb_true_iff. intros [-> Ha].
    now rewrite (IH Ha).
Qed.

Lemma split_on_app (c : N) (a b : pystr) :
  free_of c a = true -> split_on c (a ++ c :: b) = a :: split_on c b.
Proof.
  induction a as [|x a IH]; simpl.
  - now rewrite N.eqb_refl.
  - rewrite andb_true_iff, negb_true_iff. intros [-> Ha].
    now rewrite (IH Ha).
Qed.

Lemma split_on_free (c : N) (a : pystr) :
  free_of c a = true -> split_on c a = [a].
Proof.
  induction a as [|x a IH]; simpl; [reflexivity|].
  rewrite andb_true_iff, negb_true_iff. intros [-> Ha].
  now rewrite (IH Ha).
Qed.

Lemma num_chars_free (c : N) (s : pystr) :
  num_char c = false -> forallb num_char s = true -> free_of c s = true.
Proof.
  intros Hc. unfold free_of. rewrite !forallb_forall. intros H x Hx.
  apply negb_true_iff, N.eqb_neq. intros ->.
  rewrite (H _ Hx) in Hc. discriminate.
Qed.

Lemma digit_num_char (c : N) : is_digit c = true -> num_char c = true.
Proof. unfold num_char. now intros ->. Qed.

Lemma digits_num_chars (s : pystr) :
  forallb is_digit s = true -> forallb num_char s = true.
Proof.
  rewrite !forallb_forall. intros H x Hx. apply digit_num_char, H, Hx.
Qed.

(** ** Digits *)

Lemma uint_chars_digits (d : Decimal.uint) :
  forallb is_digit (uint_chars d) = true.
Proof. induction d; simpl; auto. Qed.

Lemma chars_uint_chars (d : Decimal.uint) : chars_uint (uint_chars d) = d.
Proof. induction d; simpl; congruence. Qed.

Lemma span_digits_spec (s ds r : pystr) :
  span_digits s = (ds, r) ->
  s = ds ++ r /\ forallb is_digit ds = true /\ forallb is_digit (firstn 1 r) = false
  \/ s = ds ++ r /\ forallb is_digit ds = true /\ r = [].
Proof.
  revert ds r. induction s as [|c t IH]; simpl; intros ds r.
  - intros [= <- <-]. right. auto.
  - destruct (is_digit c) eqn:Hc.
    + destruct (span_digits t) as [ds' r'] eqn:Ht. intros [= <- <-].
      destruct (IH _ _ eq_refl) as [(-> & Hd & Hr)|(-> & Hd & ->)].
      * left. simpl. rewrite Hc, Hd. auto.
      * right. simpl. rewrite Hc, Hd. auto.
    + intros [= <- <-]. left. simpl. rewrite Hc. auto.
Qed.

Lemma span_digits_app (ds rest : pystr) :
  forallb is_digit ds = true ->
  forallb is_digit (firstn 1 rest) = false \/ rest = [] ->
  span_digits (ds ++ rest) = (ds, rest).
Proof.
  intros Hd Hr. induction ds as [|c t IH]; simpl in *.
  - destruct rest as [|x r]; [reflexivity|]. simpl in Hr.
    destruct Hr as [Hr|Hr]; [|discriminate].
    rewrite andb_true_r in Hr. simpl. now rewrite Hr.
  - apply andb_true_iff in Hd as [-> Hd]. now rewrite (IH Hd).
Qed.

End TextFacts.

(* ================================================================== *)
(** * The number pattern *)
(* ================================================================== *)

Section NumberPattern.

Lemma next_is_spec (c : N) (s t : pystr) : next_is c s = Some t <-> s = c :: t.
Proof.
  destruct s as [|x s]; simpl; [split; discriminate|].
  destruct (N.eqb_spec x c) as [->|Hx]; split; intros H;
    try discriminate; inversion H; subst; try reflexivity; contradiction.
Qed.

Lemma number_stop_digit (rest : pystr) :
  number_stop rest = true ->
  forallb is_digit (firstn 1 rest) = false \/ rest = [].
Proof.
  destruct rest as [|c rest]; [now right|]. left. simpl in *.
  apply negb_true_iff in H. rewrite !orb_false_iff in H.
  now destruct H as [[[-> _] _] _].
Qed.

Lemma span_digits_extend (s ds r rest : pystr) :
  span_digits s = (ds, r) ->
  (r = [] -> number_stop rest = true) ->
  span_digits (s ++ rest) = (ds, r ++ rest).
Proof.
  intros Hs Hstop.
  destruct (span_digits_spec _ _ _ Hs) as [(-> & Hd & Hr)|(-> & Hd & ->)].
  - rewrite <- app_assoc. apply span_digits_app; [assumption|].
    left. destruct r as [|c r]; [discriminate|exact Hr].
  - rewrite app_nil_r. apply span_digits_app; [assumption|].
    now apply number_stop_digit, Hstop.
Qed.

Lemma span_digits_chars (s ds r : pystr) :
  span_digits s = (ds, r) -> s = ds ++ r /\ forallb num_char ds = true.
Proof.
  intros Hs.
  destruct (span_digits_spec _ _ _ Hs) as [(-> & Hd & _)|(-> & Hd & _)];
    auto using digits_num_chars.
Qed.

Lemma match_integer_spec (s i r : pystr) :
  match_integer s = Some (i, r) ->
  s = i ++ r /\ forallb num_char i = true
  /\ exists c t, i = c :: t /\ (is_digit c = true \/ c = 45%N).
Proof.
  assert (Hbody : forall c t,
    (if N.eqb c 48 then Some ([c], t)
     else if is_digit c then
       let (ds, r) := span_digits t in Some (c :: ds, r)
     else None) = Some (i, r) ->
    c :: t = i ++ r /\ forallb num_char i = true
    /\ exists t', i = c :: t' /\ is_digit c = true).
  { intros c t. destruct (N.eqb_spec c 48) as [->|Hc].
    - intros [= <- <-]. simpl. eauto.
    - destruct (is_digit c) eqn:Hd; [|discriminate].
      destruct (span_digits t) as [ds r'] eqn:Ht. intros [= <- <-].
      destruct (span_digits_chars _ _ _ Ht) as [-> Hds]. simpl.
      rewrite (digit_num_char _ Hd), Hds. eauto. }
  unfold match_integer.
  destruct (next_is 45 s) as [t|] eqn:Hsign.
  - apply next_is_spec in Hsign as ->.
    destruct t as [|c t]; [discriminate|]. intros H.
    assert (exists i', i = 45%N :: i' /\
              (if N.eqb c 48 then Some ([c], t)
               else if is_digit c then
                 let (ds, r) := span_digits t in Some (c :: ds, r)
               else None) = Some (i', r)) as (i' & -> & H').
    { simpl in H. destruct (N.eqb c 48); [injection H as <- <-; eauto|].
      destruct (is_digit c); [|discriminate].
      destruct (span_digits t). injection H as <- <-. eauto. }
    clear H. revert H'. clear Hbody. intros H'.
    assert (c :: t = i' ++ r /\ forallb num_char i' = true) as [He Hn].
    { destruct (N.eqb_spec c 48) as [->|Hc].
      - injection H' as <- <-. simpl. auto.
      - destruct (is_digit c) eqn:Hd; [|discriminate].
        destruct (span_digits t) as [ds r'] eqn:Ht. injection H' as <- <-.
        destruct (span_digits_chars _ _ _ Ht) as [-> Hds]. simpl.
        rewrite (digit_num_char _ Hd), Hds. auto. }
    simpl. rewrite He, Hn. eauto 8.
  - destruct s as [|c t]; [discriminate|]. intros H.
    destruct (Hbody c t H) as (He & Hn & t' & -> & Hd). eauto 8.
Qed.

Lemma match_integer_extend (s i r rest : pystr) :
  match_integer s = Some (i, r) ->
  (r = [] -> number_stop rest = true) ->
  match_integer (s ++ rest) = Some (i, r ++ rest).
Proof.
  unfold match_integer. intros H Hstop.
  destruct (next_is 45 s) as [t|] eqn:Hsign.
  - apply next_is_spec in Hsign as ->. simpl.
    destruct t as [|c t]; [discriminate|]. simpl.
    destruct (N.eqb c 48); [now injection H as <- <-|].
    destruct (is_digit c); [|discriminate].
    destruct (span_digits t) as [ds r'] eqn:Ht. injection H as <- <-.
    now rewrite (span_digits_extend _ _ _ rest Ht Hstop).
  - destruct s as [|c t]; [discriminate|].
    simpl in Hsign |- *. destruct (N.eqb c 45); [discriminate|].
    destruct (N.eqb c 48); [now injection H as <- <-|].
    destruct (is_digit c); [|discriminate].
    destruct (span_digits t) as [ds r'] eqn:Ht. injection H as <- <-.
    now rewrite (span_digits_extend _ _ _ rest Ht Hstop).
Qed.

Lemma match_frac_spec (s f r : pystr) :
  match_frac s = (f, r) -> s = f ++ r /\ forallb num_char f = true.
Proof.
  unfold match_frac.
  destruct (next_is 46 s) as [t|] eqn:Hdot; [|now intros [= <- <-]].
  apply next_is_spec in Hdot as ->.
  destruct (span_digits t) as [[|d ds] r'] eqn:Ht; intros [= <- <-]; [auto|].
  destruct (span_digits_chars _ _ _ Ht) as [-> Hds]. simpl in *. now rewrite Hds.
Qed.

(** The fraction group reads the same when text is appended, provided what
    it left unread does not start with a dot. *)
Lemma match_frac_extend (s f r rest : pystr) :
  match_frac s = (f, r) ->
  next_is 46 r = None ->
  (r = [] -> number_stop rest = true) ->
  match_frac (s ++ rest) = (f, r ++ rest).
Proof.
  unfold match_frac. intros H Hr Hstop.
  destruct (next_is 46 s) as [t|] eqn:Hdot.
  - apply next_is_spec in Hdot as ->. simpl.
    destruct (span_digits t) as [[|d ds] r'] eqn:Ht; injection H as <- <-.
    + simpl in Hr. discriminate.
    + now rewrite (span_digits_extend _ _ _ rest Ht Hstop).
  - injection H as <- <-.
    destruct s as [|c t]; simpl in *.
    + specialize (Hstop eq_refl). destruct rest as [|x rest]; [reflexivity|].
      simpl in *. apply negb_true_iff in Hstop.
      rewrite !orb_false_iff in Hstop. now destruct Hstop as [[[_ ->] _] _].
    + now destruct (N.eqb c 46).
Qed.

Lemma match_exp_spec (s e r : pystr) :
  match_exp s = (e, r) -> s = e ++ r /\ forallb num_char e = true.
Proof.
  unfold match_exp. destruct s as [|c t]; [now intros [= <- <-]|].
  destruct (N.eqb c 101 || N.eqb c 69) eqn:He; [|now intros [= <- <-]].
  assert (Hc : num_char c = true).
  { unfold num_char. apply orb_true_iff in He as [->| ->];
      rewrite ?orb_true_r; reflexivity. }
  destruct t as [|x t'].
  - simpl. now intros [= <- <-].
  - destruct (N.eqb x 43 || N.eqb x 45) eqn:Hsign.
    + destruct (span_digits t') as [[|d ds] r'] eqn:Ht; intros [= <- <-];
        [auto|].
      destruct (span_digits_chars _ _ _ Ht) as [-> Hds]. simpl in *.
      rewrite Hc, Hds. split; [reflexivity|].
      unfold num_char. apply orb_true_iff in Hsign as [->| ->];
        rewrite ?orb_true_r; reflexivity.
    + destruct (span_digits (x :: t')) as [[|d ds] r'] eqn:Ht;
        intros [= <- <-]; [auto|].
      destruct (span_digits_chars _ _ _ Ht) as [Hx Hds]. simpl in *.
      rewrite Hx, Hc. simpl in Hds. now rewrite Hds.
Qed.

Lemma match_exp_head (s e r : pystr) :
  match_exp s = (e, r) -> r = [] -> next_is 46 s = None.
Proof.
  unfold match_exp. destruct s as [|c t]; [reflexivity|].
  simpl. destruct (N.eqb_spec c 46) as [->|Hc]; [|reflexivity].
  simpl. intros [= <- <-]. discriminate.
Qed.

Lemma match_exp_extend (s e rest : pystr) :
  match_exp s = (e, []) ->
  number_stop rest = true ->
  match_exp (s ++ rest) = (e, rest).
Proof.
  unfold match_exp. intros H Hstop. destruct s as [|c t].
  - injection H as <-. destruct rest as [|x rest]; [reflexivity|].
    simpl in *. apply negb_true_iff in Hstop. rewrite !orb_false_iff in Hstop.
    destruct Hstop as [[_ ->] ->]. reflexivity.
  - simpl. destruct (N.eqb c 101 || N.eqb c 69); [|discriminate].
    destruct t as [|x t'].
    + simpl in H. discriminate.
    + simpl. destruct (N.eqb x 43 || N.eqb x 45).
      * destruct (span_digits t') as [[|d ds] r'] eqn:Ht; [discriminate|].
        injection H as <- ->.
        now rewrite (span_digits_extend _ _ _ rest Ht (fun _ => Hstop)).
      * destruct (span_digits (x :: t')) as [[|d ds] r'] eqn:Ht;
          [discriminate|].
        injection H as <- ->.
        change (x :: t' ++ rest) with ((x :: t') ++ rest).
        now rewrite (span_digits_extend _ _ _ rest Ht (fun _ => Hstop)).
Qed.

(** A text the pattern matches entirely is matched the same way when it is
    followed by a character that cannot continue a number. *)
Lemma match_number_extend (s i f e rest : pystr) :
  match_number s = Some (i, f, e, []) ->
  number_stop rest = true ->
  match_number (s ++ rest) = Some (i, f, e, rest).
Proof.
  unfold match_number. intros H Hstop.
  destruct (match_integer s) as [[i' r1]|] eqn:Hi; [|discriminate].
  destruct (match_frac r1) as [f' r2] eqn:Hf.
  destruct (match_exp r2) as [e' r3] eqn:He.
  injection H as -> -> -> ->.
  destruct (match_frac_spec _ _ _ Hf) as [-> _].
  destruct (match_exp_spec _ _ _ He) as [-> _].
  rewrite (match_integer_extend _ _ _ rest Hi).
  2:{ intros H0. destruct f; [|discriminate]. destruct e; [|discriminate].
      exact Hstop. }
  rewrite (match_frac_extend _ _ _ rest Hf).
  2:{ exact (match_exp_head _ _ _ He eq_refl). }
  2:{ rewrite app_nil_r. intros ->. exact Hstop. }
  rewrite app_nil_r in *.
  now rewrite (match_exp_extend _ _ rest He Hstop).
Qed.

Lemma match_number_spec (s i f e r : pystr) :
  match_number s = Some (i, f, e, r) ->
  s = i ++ f ++ e ++ r /\ forallb num_char (i ++ f ++ e) = true
  /\ exists c t, i = c :: t /\ (is_digit c = true \/ c = 45%N).
Proof.
  unfold match_number. intros H.
  destruct (match_integer s) as [[i' r1]|] eqn:Hi; [|discriminate].
  destruct (match_frac r1) as [f' r2] eqn:Hf.
  destruct (match_exp r2) as [e' r3] eqn:He.
  injection H as -> -> -> ->.
  destruct (match_integer_spec _ _ _ Hi) as (-> & Hci & Hhead).
  destruct (match_frac_spec _ _ _ Hf) as [-> Hcf].
  destruct (match_exp_spec _ _ _ He) as [-> Hce].
  rewrite !forallb_app, Hci, Hcf, Hce. auto.
Qed.

Lemma float_literal_spec (s : pystr) :
  is_float_literal s = true ->
  forallb num_char s = true
  /\ (exists c t, s = c :: t /\ (is_digit c = true \/ c = 45%N))
  /\ exists i f e, match_number s = Some (i, f, e, [])
                   /\ s = i ++ f ++ e /\ is_nil f && is_nil e = false.
Proof.
  unfold is_float_literal.
  destruct (match_number s) as [[[[i f] e] [|x r]]|] eqn:Hm; try discriminate.
  rewrite negb_true_iff. intros Hfe.
  destruct (match_number_spec _ _ _ _ _ Hm) as (Hs & Hc & c & t & -> & Hd).
  rewrite app_nil_r in Hs. split; [now rewrite Hs|].
  split; [exists c, (t ++ f ++ e); now rewrite Hs|].
  exists (c :: t), f, e. auto.
Qed.

End NumberPattern.

(* ================================================================== *)
(** * Strings: [scanstring] reads back [encode_basestring_ascii] *)
(* ================================================================== *)

Section Strings.
Local Open Scope N_scope.

Ltac cmp :=
  repeat match goal with
  | |- context [N.leb ?a ?b] => destruct (N.leb_spec a b)
  | |- context [N.ltb ?a ?b] => destruct (N.ltb_spec a b)
  | |- context [N.eqb ?a ?b] => destruct (N.eqb_spec a b)
  end; cbn [andb orb negb]; try lia; try reflexivity.

Lemma hex_val_digit (d : N) : d < 16 -> hex_val (hex_digit d) = Some d.
Proof.
  intros H. unfold hex_val, hex_digit, is_digit.
  destruct (N.ltb_spec d 10); cmp; f_equal; lia.
Qed.

Lemma hex4_value (n : N) :
  n < 65536 ->
  (((N.shiftr n 12 mod 16) * 16 + N.shiftr n 8 mod 16) * 16
   + N.shiftr n 4 mod 16) * 16 + n mod 16 = n.
Proof.
  intros H. rewrite !N.shiftr_div_pow2.
  change (2^12) with 4096. change (2^8) with 256. change (2^4) with 16.
  pose proof (N.div_mod n 16 ltac:(lia)).
  pose proof (N.div_mod (n/16) 16 ltac:(lia)).
  pose proof (N.div_mod (n/16/16) 16 ltac:(lia)).
  rewrite !N.Div0.div_div in * by lia.
  simpl (16*16) in *. simpl (256 * 16) in *.
  assert (n / 4096 < 16) by (apply N.Div0.div_lt_upper_bound; lia).
  rewrite (N.mod_small (n/4096)) by lia.
  pose proof (N.mod_lt n 16 ltac:(lia)).
  pose proof (N.mod_lt (n/16) 16 ltac:(lia)).
  pose proof (N.mod_lt (n/256) 16 ltac:(lia)).
  lia.
Qed.

Lemma decode_hex4 (n : N) (r : pystr) :
  n < 65536 -> decode_uXXXX (hex4 n ++ r) = Some (n, r).
Proof.
  intros H.
  change (decode_uXXXX
            (hex_digit (N.shiftr n 12 mod 16) :: hex_digit (N.shiftr n 8 mod 16)
             :: hex_digit (N.shiftr n 4 mod 16) :: hex_digit (n mod 16) :: r)
          = Some (n, r)).
  unfold decode_uXXXX.
  rewrite !hex_val_digit by (apply N.mod_lt; lia).
  now rewrite hex4_value.
Qed.

Lemma land_shifted_low (h x k : N) : x < 2 ^ k -> N.land (h * 2 ^ k) x = 0.
Proof.
  intros Hx. apply N.bits_inj_0. intros i. rewrite N.land_spec.
  destruct (N.lt_ge_cases i k) as [Hi|Hi].
  - now rewrite N.mul_pow2_bits_low.
  - rewrite <- (N.mod_small x (2 ^ k)) by exact Hx.
    rewrite N.mod_pow2_bits_high by exact Hi. apply andb_false_r.
Qed.

Lemma lor_shifted_low (h x k : N) :
  x < 2 ^ k -> N.lor (h * 2 ^ k) x = h * 2 ^ k + x.
Proof.
  intros Hx. pose proof (land_shifted_low h x k Hx) as H0.
  rewrite <- N.lxor_lor by exact H0. symmetry.
  now apply N.add_nocarry_lxor.
Qed.

(** The two halves [encode_char] writes for a code point above the BMP,
    and what the decoder makes of them. *)
Lemma surrogate_pair (c : N) :
  65536 <= c < 1114112 ->
  let n := c - 65536 in
  let s1 := N.lor 55296 (N.land (N.shiftr n 10) 1023) in
  let s2 := N.lor 56320 (N.land n 1023) in
  is_high_surrogate s1 = true /\ is_low_surrogate s2 = true
  /\ s1 < 65536 /\ s2 < 65536
  /\ 65536 + N.lor (N.shiftl (s1 - 55296) 10) (s2 - 56320) = c.
Proof.
  intros Hc n s1 s2.
  assert (Hn : n < 1048576) by (unfold n; lia).
  assert (Hhi : N.land (N.shiftr n 10) 1023 = n / 1024).
  { change 1023 with (N.ones 10). rewrite N.land_ones, N.shiftr_div_pow2.
    change (2 ^ 10) with 1024. apply N.mod_small.
    apply N.Div0.div_lt_upper_bound. lia. }
  assert (Hlo : N.land n 1023 = n mod 1024).
  { change 1023 with (N.ones 10). now rewrite N.land_ones. }
  assert (Hq : n / 1024 < 1024) by (apply N.Div0.div_lt_upper_bound; lia).
  assert (Hr : n mod 1024 < 1024) by (apply N.mod_lt; lia).
  assert (Hs1 : s1 = 55296 + n / 1024).
  { unfold s1. rewrite Hhi. change 55296 with (54 * 2 ^ 10).
    apply lor_shifted_low. exact Hq. }
  assert (Hs2 : s2 = 56320 + n mod 1024).
  { unfold s2. rewrite Hlo. change 56320 with (55 * 2 ^ 10).
    apply lor_shifted_low. exact Hr. }
  rewrite Hs1, Hs2. unfold is_high_surrogate, is_low_surrogate.
  repeat split; try (cmp; fail); try lia.
  replace (55296 + n / 1024 - 55296) with (n / 1024) by lia.
  replace (56320 + n mod 1024 - 56320) with (n mod 1024) by lia.
  rewrite N.shiftl_mul_pow2, lor_shifted_low by exact Hr.
  change (2 ^ 10) with 1024.
  pose proof (N.div_mod n 1024 ltac:(lia)). unfold n in *. lia.
Qed.

Lemma encode_char_length (c : N) : (1 <= List.length (encode_char c))%nat.
Proof.
  unfold encode_char.
  repeat match goal with
  | |- context [if ?b then _ else _] => destruct b
  end; simpl; lia.
Qed.

Lemma encoded_length (s : pystr) :
  (List.length s <= List.length (flat_map encode_char s))%nat.
Proof.
  induction s as [|c t IH]; simpl; [lia|].
  rewrite length_app. pose proof (encode_char_length c). lia.
Qed.

(** One turn of the loop of [scanstring], by the kind of input. *)

Lemma scan_chars_plain (fuel : nat) (c : N) (R : pystr) :
  N.eqb c 34 = false -> N.eqb c 92 = false -> (c <? 32) = false ->
  scan_chars (S fuel) (c :: R) = scan_next fuel c R.
Proof. intros H1 H2 H3. cbn [scan_chars]. now rewrite H1, H2, H3. Qed.

Lemma scan_chars_short (fuel : nat) (esc ch : N) (R : pystr) :
  N.eqb esc 117 = false -> backslash esc = Some ch ->
  scan_chars (S fuel) (92 :: esc :: R) = scan_next fuel ch R.
Proof.
  intros H1 H2.
  change (scan_chars (S fuel) (92 :: esc :: R))
    with (if N.eqb esc 117 then
            match decode_uXXXX R with
            | None => None
            | Some (uni, r2) =>
                match join_surrogates uni r2 with
                | None => None
                | Some (ch, r5) => scan_next fuel ch r5
                end
            end
          else match backslash esc with
               | None => None
               | Some ch => scan_next fuel ch R
               end).
  now rewrite H1, H2.
Qed.

Lemma scan_chars_escape (fuel : nat) (X : pystr) :
  scan_chars (S fuel) (92 :: 117 :: X)
  = match decode_uXXXX X with
    | None => None
    | Some (uni, r2) =>
        match join_surrogates uni r2 with
        | None => None
        | Some (ch, r5) => scan_next fuel ch r5
        end
    end.
Proof. reflexivity. Qed.

Lemma scan_chars_u (fuel : nat) (n : N) (R : pystr) :
  n < 65536 -> join_surrogates n R = Some (n, R) ->
  scan_chars (S fuel) (92 :: 117 :: hex4 n ++ R) = scan_next fuel n R.
Proof.
  intros Hn Hj. rewrite scan_chars_escape, (decode_hex4 n R Hn). now rewrite Hj.
Qed.

Lemma scan_chars_pair (fuel : nat) (c : N) (R : pystr) :
  65536 <= c < 1114112 ->
  let n := c - 65536 in
  let s1 := N.lor 55296 (N.land (N.shiftr n 10) 1023) in
  let s2 := N.lor 56320 (N.land n 1023) in
  scan_chars (S fuel) ((92 :: 117 :: hex4 s1) ++ (92 :: 117 :: hex4 s2) ++ R)
  = scan_next fuel c R.
Proof.
  intros Hc n s1 s2.
  destruct (surrogate_pair c Hc) as (Hh & Hl & H1 & H2 & Hjoin).
  fold n in Hh, Hl, H1, H2, Hjoin. fold s1 in Hh, H1, Hjoin.
  fold s2 in Hl, H2, Hjoin.
  change ((92 :: 117 :: hex4 s1) ++ (92 :: 117 :: hex4 s2) ++ R)
    with (92 :: 117 :: hex4 s1 ++ (92 :: 117 :: hex4 s2 ++ R)).
  rewrite scan_chars_escape, (decode_hex4 s1 _ H1).
  unfold join_surrogates. rewrite Hh.
  change (strip_prefix [92; 117] (92 :: 117 :: hex4 s2 ++ R))
    with (Some (hex4 s2 ++ R)).
  cbv beta iota. rewrite (decode_hex4 s2 R H2), Hl, Hjoin. reflexivity.
Qed.

(** After a high surrogate that [encode_char] escaped on its own, the
    decoder finds nothing to join it with: the next character is not a low
    surrogate, so its encoding is not the escape of one. *)
Lemma join_surrogates_encoded (c : N) (t rest : pystr) :
  starts_low t = false -> wf_str t = true ->
  join_surrogates c (flat_map encode_char t ++ 34 :: rest)
  = Some (c, flat_map encode_char t ++ 34 :: rest).
Proof.
  intros Hlow Hwf. unfold join_surrogates.
  destruct (is_high_surrogate c); [|reflexivity].
  destruct t as [|d t']; [reflexivity|].
  cbn [flat_map]. rewrite <- app_assoc.
  set (R := flat_map encode_char t' ++ 34 :: rest).
  cbn [starts_low] in Hlow. cbn [wf_str] in Hwf.
  apply andb_true_iff in Hwf as [Hwf _].
  apply andb_true_iff in Hwf as [Hd _]. apply N.ltb_lt in Hd.
  unfold encode_char.
  destruct (N.eqb_spec d 92); [reflexivity|].
  destruct (N.eqb_spec d 34); [reflexivity|].
  destruct ((32 <=? d) && (d <=? 126)) eqn:Hp.
  { change ([d] ++ R) with (d :: R). cbn [strip_prefix].
    destruct (N.eqb_spec 92 d); [congruence|reflexivity]. }
  destruct (N.eqb_spec d 8); [reflexivity|].
  destruct (N.eqb_spec d 12); [reflexivity|].
  destruct (N.eqb_spec d 10); [reflexivity|].
  destruct (N.eqb_spec d 13); [reflexivity|].
  destruct (N.eqb_spec d 9); [reflexivity|].
  destruct (N.ltb_spec d 65536) as [Hbmp|Hbmp].
  - change (strip_prefix [92; 117] ((92 :: 117 :: hex4 d) ++ R))
      with (Some (hex4 d ++ R)).
    cbv beta iota. now rewrite (decode_hex4 d R Hbmp), Hlow.
  - destruct (surrogate_pair d (conj Hbmp Hd)) as (Hh & _ & H1 & _).
    cbv zeta in Hh, H1.
    set (s1 := N.lor 55296 (N.land (N.shiftr (d - 65536) 10) 1023)) in *.
    set (s2 := N.lor 56320 (N.land (d - 65536) 1023)).
    rewrite <- app_assoc.
    change (strip_prefix [92; 117] ((92 :: 117 :: hex4 s1) ++ (92 :: 117 :: hex4 s2) ++ R))
      with (Some (hex4 s1 ++ (92 :: 117 :: hex4 s2) ++ R)).
    cbv beta iota. rewrite (decode_hex4 s1 _ H1).
    assert (is_low_surrogate s1 = false) as ->; [|reflexivity].
    unfold is_high_surrogate in Hh. apply andb_true_iff in Hh as [_ Hh].
    apply N.leb_le in Hh. unfold is_low_surrogate.
    apply andb_false_iff. left. apply N.leb_gt. lia.
Qed.

Lemma scan_chars_encode_char (fuel : nat) (c : N) (t rest : pystr) :
  wf_str (c :: t) = true ->
  scan_chars (S fuel) (encode_char c ++ flat_map encode_char t ++ 34 :: rest)
  = scan_next fuel c (flat_map encode_char t ++ 34 :: rest).
Proof.
  intros Hwf. cbn [wf_str] in Hwf.
  apply andb_true_iff in Hwf as [Hwf Ht].
  apply andb_true_iff in Hwf as [Hc Hpair]. apply N.ltb_lt in Hc.
  set (R := flat_map encode_char t ++ 34 :: rest).
  unfold encode_char.
  destruct (N.eqb_spec c 92) as [->|H92];
    [now apply scan_chars_short|].
  destruct (N.eqb_spec c 34) as [->|H34];
    [now apply scan_chars_short|].
  destruct ((32 <=? c) && (c <=? 126)) eqn:Hp.
  { apply andb_true_iff in Hp as [Hp _]. apply N.leb_le in Hp.
    apply scan_chars_plain; [now apply N.eqb_neq|now apply N.eqb_neq|].
    apply N.ltb_ge. exact Hp. }
  destruct (N.eqb_spec c 8) as [->|H8]; [now apply scan_chars_short|].
  destruct (N.eqb_spec c 12) as [->|H12]; [now apply scan_chars_short|].
  destruct (N.eqb_spec c 10) as [->|H10]; [now apply scan_chars_short|].
  destruct (N.eqb_spec c 13) as [->|H13]; [now apply scan_chars_short|].
  destruct (N.eqb_spec c 9) as [->|H9]; [now apply scan_chars_short|].
  destruct (N.ltb_spec c 65536) as [Hbmp|Hbmp].
  - apply (scan_chars_u fuel c R Hbmp).
    destruct (is_high_surrogate c) eqn:Hh.
    + apply join_surrogates_encoded; [|exact Ht].
      apply negb_true_iff in Hpair. exact Hpair.
    + unfold join_surrogates. now rewrite Hh.
  - rewrite <- app_assoc. apply scan_chars_pair. lia.
Qed.

Lemma scan_chars_encoded (s rest : pystr) (fuel : nat) :
  wf_str s = true -> (List.length s < fuel)%nat ->
  scan_chars fuel (flat_map encode_char s ++ 34 :: rest) = Some (s, rest).
Proof.
  revert fuel. induction s as [|c t IH]; intros fuel Hwf Hfuel.
  - destruct fuel as [|fuel]; [simpl in Hfuel; lia|]. reflexivity.
  - destruct fuel as [|fuel]; [simpl in Hfuel; lia|].
    cbn [flat_map]. rewrite <- app_assoc.
    rewrite (scan_chars_encode_char fuel c t rest Hwf). unfold scan_next.
    rewrite IH; [reflexivity| |simpl in Hfuel; lia].
    cbn [wf_str] in Hwf. now apply andb_true_iff in Hwf as [_ Ht].
Qed.

(** [scanstring] after the opening quote of an encoded string. *)
Lemma scanstring_encoded (s rest : pystr) :
  wf_str s = true ->
  scanstring (flat_map encode_char s ++ 34 :: rest) = Some (s, rest).
Proof.
  intros Hwf. unfold scanstring. apply scan_chars_encoded; [exact Hwf|].
  rewrite length_app. pose proof (encoded_length s). simpl. lia.
Qed.

End Strings.

(* ================================================================== *)
(** * Values: [json_loads] reads back [json_dumps] *)
(* ================================================================== *)

Section Numbers.

Lemma to_uint_normal (p : positive) : Decimal.unorm (Pos.to_uint p) = Pos.to_uint p.
Proof.
  rewrite <- (DecimalPos.Unsigned.to_of (Pos.to_uint p)).
  now rewrite DecimalPos.Unsigned.of_to.
Qed.

(** The decimal digits of a positive number start with a digit from 1 to
    9. *)
Lemma to_uint_head (p : positive) :
  exists c t, uint_chars (Pos.to_uint p) = c :: t
              /\ is_digit c = true /\ N.eqb c 48 = false
              /\ N.eqb c 45 = false.
Proof.
  pose proof (to_uint_normal p) as Hn.
  pose proof (DecimalPos.Unsigned.to_uint_nonzero p) as Hz.
  pose proof (DecimalPos.Unsigned.to_uint_nonnil p) as Hnil.
  destruct (Pos.to_uint p) as [|d|d|d|d|d|d|d|d|d|d]; [congruence| |..];
    try (simpl; eauto 8; fail).
  exfalso. rewrite DecimalFacts.unorm_D0 in Hn.
  destruct (Decimal.nzhead d) eqn:Hd;
    try (rewrite DecimalFacts.unorm_nzhead in Hn by congruence;
         rewrite Hd in Hn; discriminate).
  - unfold Decimal.unorm in Hn. rewrite Hd in Hn. congruence.
  - rewrite DecimalFacts.unorm_nzhead in Hn by congruence.
    exact (DecimalFacts.nzhead_nonzero _ _ Hn).
Qed.

Lemma span_digits_all (ds : pystr) :
  forallb is_digit ds = true -> span_digits ds = (ds, []).
Proof.
  intros H. rewrite <- (app_nil_r ds) at 1. apply span_digits_app; auto.
Qed.

Lemma match_number_pos (p : positive) :
  match_number (uint_chars (Pos.to_uint p))
  = Some (uint_chars (Pos.to_uint p), [], [], []).
Proof.
  destruct (to_uint_head p) as (c & t & Hp & Hd & H0 & Hm).
  pose proof (uint_chars_digits (Pos.to_uint p)) as Hall.
  rewrite Hp in *. simpl in Hall. apply andb_true_iff in Hall as [_ Hall].
  unfold match_number, match_integer. cbn [next_is]. rewrite Hm, H0, Hd.
  rewrite (span_digits_all _ Hall). reflexivity.
Qed.

Lemma match_number_neg (p : positive) :
  match_number (45%N :: uint_chars (Pos.to_uint p))
  = Some (45%N :: uint_chars (Pos.to_uint p), [], [], []).
Proof.
  destruct (to_uint_head p) as (c & t & Hp & Hd & H0 & Hm).
  pose proof (uint_chars_digits (Pos.to_uint p)) as Hall.
  rewrite Hp in *. simpl in Hall. apply andb_true_iff in Hall as [_ Hall].
  unfold match_number, match_integer. cbn [next_is N.eqb Pos.eqb].
  rewrite H0, Hd. rewrite (span_digits_all _ Hall). reflexivity.
Qed.

Lemma match_number_int (z : Z) :
  match_number (int_repr z) = Some (int_repr z, [], [], []).
Proof.
  destruct z as [|p|p];
    [reflexivity|apply match_number_pos|apply match_number_neg].
Qed.

Lemma int_of_text_repr (z : Z) : int_of_text (int_repr z) = z.
Proof.
  destruct z as [|p|p]; [reflexivity| |].
  - destruct (to_uint_head p) as (c & t & Hp & Hd & H0 & Hm).
    unfold int_of_text, int_repr. rewrite Hp. cbn [next_is]. rewrite Hm.
    rewrite <- Hp, chars_uint_chars.
    change (N.of_uint (Pos.to_uint p)) with (Pos.of_uint (Pos.to_uint p)).
    now rewrite DecimalPos.Unsigned.of_to.
  - unfold int_of_text, int_repr. cbn [next_is N.eqb Pos.eqb].
    rewrite chars_uint_chars.
    change (N.of_uint (Pos.to_uint p)) with (Pos.of_uint (Pos.to_uint p)).
    now rewrite DecimalPos.Unsigned.of_to.
Qed.

Lemma int_repr_head (z : Z) :
  exists c t, int_repr z = c :: t /\ (is_digit c = true \/ c = 45%N).
Proof.
  destruct z as [|p|p].
  - exists 48%N, []. split; [reflexivity|now left].
  - destruct (to_uint_head p) as (c & t & Hp & Hd & _).
    exists c, t. split; [exact Hp|now left].
  - exists 45%N, (uint_chars (Pos.to_uint p)). split; [reflexivity|now right].
Qed.

Lemma strip_prefix_head (x c : N) (p t : pystr) :
  N.eqb x c = false -> strip_prefix (x :: p) (c :: t) = None.
Proof. intros H. cbn [strip_prefix]. now rewrite H. Qed.

(** A text that starts like a number is no constant, so [scan_atom] goes
    on to the number pattern. *)
Lemma number_head_cases (c : N) :
  is_digit c = true \/ c = 45%N ->
  N.eqb 110 c = false /\ N.eqb 116 c = false /\ N.eqb 102 c = false
  /\ N.eqb c 34 = false /\ N.eqb c 123 = false /\ N.eqb c 91 = false
  /\ value_start c = true.
Proof.
  unfold value_start, is_digit. intros [H| ->]; [|repeat split; reflexivity].
  apply andb_true_iff in H as [H1 H2].
  apply N.leb_le in H1. apply N.leb_le in H2.
  assert (Hd : (48 <=? c)%N && (c <=? 57)%N = true).
  { apply andb_true_iff. split; now apply N.leb_le. }
  rewrite Hd.
  repeat split; try reflexivity; apply N.eqb_neq; lia.
Qed.

End Numbers.

Section Scanner.
Context {F : PyFloat} {L : PyFloatLaws F}.

Lemma scan_once_atom (fuel : nat) (c : N) (t : pystr) :
  N.eqb c 34 = false -> N.eqb c 123 = false -> N.eqb c 91 = false ->
  scan_once (S fuel) (c :: t) = scan_atom (c :: t).
Proof. intros H1 H2 H3. cbn [scan_once]. now rewrite H1, H2, H3. Qed.

Lemma scan_atom_number (s i f e r : pystr) :
  (exists c t, s = c :: t /\ (is_digit c = true \/ c = 45%N)) ->
  match_number s = Some (i, f, e, r) ->
  scan_atom s
  = if is_nil f && is_nil e then Some (PyInt (int_of_text i), r)
    else Some (PyFloat_ (float_of_str (i ++ f ++ e)), r).
Proof.
  intros (c & t & -> & Hc) Hm.
  destruct (number_head_cases c Hc) as (Hn & Ht & Hf & _).
  unfold scan_atom.
  change (lit "null") with (110%N :: lit "ull").
  change (lit "true") with (116%N :: lit "rue").
  change (lit "false") with (102%N :: lit "alse").
  rewrite !strip_prefix_head by assumption. now rewrite Hm.
Qed.

Lemma scan_once_int (fuel : nat) (z : Z) (rest : pystr) :
  number_stop rest = true ->
  scan_once (S fuel) (int_repr z ++ rest) = Some (PyInt z, rest).
Proof.
  intros Hstop.
  pose proof (match_number_extend _ _ _ _ rest (match_number_int z) Hstop)
    as Hm.
  destruct (int_repr_head z) as (c & t & Hz & Hc).
  destruct (number_head_cases c Hc) as (_ & _ & _ & H1 & H2 & H3 & _).
  assert (Hs : exists c' t', int_repr z ++ rest = c' :: t'
                             /\ (is_digit c' = true \/ c' = 45%N)).
  { rewrite Hz. simpl. eauto. }
  destruct Hs as (c' & t' & Hs & Hc').
  assert (c' = c) as -> by (rewrite Hz in Hs; simpl in Hs; congruence).
  rewrite Hs, (scan_once_atom fuel c t' H1 H2 H3), <- Hs.
  rewrite (scan_atom_number _ _ _ _ _
             (ex_intro _ c (ex_intro _ t' (conj Hs Hc))) Hm).
  cbn [is_nil andb]. now rewrite int_of_text_repr.
Qed.

Lemma scan_once_finite (fuel : nat) (f : pyfloat) (rest : pystr) :
  float_classify f = FFinite -> number_stop rest = true ->
  scan_once (S fuel) (float_repr f ++ rest) = Some (PyFloat_ f, rest).
Proof.
  intros Hf Hstop.
  destruct (float_literal_spec _ (repr_finite f Hf))
    as (_ & (c & t & Hr & Hc) & i & fr & e & Hm & Hparts & Hnil).
  pose proof (match_number_extend _ _ _ _ rest Hm Hstop) as Hm'.
  destruct (number_head_cases c Hc) as (_ & _ & _ & H1 & H2 & H3 & _).
  assert (Hs : float_repr f ++ rest = c :: (t ++ rest)) by now rewrite Hr.
  rewrite Hs, (scan_once_atom fuel c _ H1 H2 H3), <- Hs.
  rewrite (scan_atom_number _ _ _ _ _
             (ex_intro _ c (ex_intro _ (t ++ rest) (conj Hs Hc))) Hm').
  rewrite Hnil, <- Hparts. now rewrite (of_repr f Hf).
Qed.

Lemma scan_once_float (fuel : nat) (f : pyfloat) (rest : pystr) :
  float_classify f <> FNaN -> number_stop rest = true ->
  scan_once (S fuel) (floatstr f ++ rest) = Some (PyFloat_ f, rest).
Proof.
  intros Hn Hstop. unfold floatstr.
  destruct (float_classify f) eqn:Hf; [congruence| | |].
  - rewrite (inf_unique f Hf). reflexivity.
  - rewrite (neg_inf_unique f Hf). reflexivity.
  - now apply scan_once_finite.
Qed.

End Scanner.

Section Dicts.
Context {F : PyFloat}.

Lemma existsb_eqb_In (k : pystr) (l : list pystr) :
  existsb (pystr_eqb k) l = true <-> In k l.
Proof.
  rewrite existsb_exists. split.
  - intros (x & Hx & He). apply pystr_eqb_eq in He. now subst.
  - intros H. exists k. split; [exact H|apply pystr_eqb_refl].
Qed.

Lemma distinct_NoDup (l : list pystr) : distinct l = true <-> NoDup l.
Proof.
  induction l as [|k t IH]; simpl.
  - split; [constructor|reflexivity].
  - rewrite andb_true_iff, negb_true_iff, IH. split.
    + intros [Hk Ht]. constructor; [|exact Ht].
      intros Hin. apply existsb_eqb_In in Hin. congruence.
    + intros H. inversion H as [|? ? Hk Ht]; subst. split; [|exact Ht].
      destruct (existsb (pystr_eqb k) t) eqn:He; [|reflexivity].
      apply existsb_eqb_In in He. contradiction.
Qed.

Lemma dict_set_fresh (k : pystr) (v : pyval) (d : list (pystr * pyval)) :
  ~ In k (map fst d) -> dict_set k v d = d ++ [(k, v)].
Proof.
  induction d as [|[k' v'] d IH]; simpl; [reflexivity|]. intros Hk.
  destruct (pystr_eqb k k') eqn:He.
  - apply pystr_eqb_eq in He. subst. tauto.
  - rewrite IH; [reflexivity|tauto].
Qed.

Lemma fold_dict_set (pairs acc : list (pystr * pyval)) :
  NoDup (map fst (acc ++ pairs)) ->
  fold_left (fun d kv => dict_set (fst kv) (snd kv) d) pairs acc
  = acc ++ pairs.
Proof.
  revert acc. induction pairs as [|[k v] ps IH]; intros acc Hnd; simpl.
  - now rewrite app_nil_r.
  - rewrite dict_set_fresh.
    + rewrite IH; rewrite <- app_assoc; [reflexivity|exact Hnd].
    + rewrite map_app in Hnd. simpl in Hnd.
      apply NoDup_remove_2 in Hnd. intros Hin. apply Hnd.
      apply in_or_app. now left.
Qed.

(** [dict(pairs)] of pairs with distinct keys is those pairs. *)
Lemma dict_of_pairs_distinct (d : list (pystr * pyval)) :
  distinct (map fst d) = true -> dict_of_pairs d = d.
Proof.
  intros H. apply distinct_NoDup in H. unfold dict_of_pairs.
  now rewrite fold_dict_set.
Qed.

(** Induction on values, with the hypothesis for every item of a list and
    every value of a dict. *)
Lemma pyval_ind' (P : pyval -> Prop) :
  P PyNone ->
  (forall b, P (PyBool b)) ->
  (forall z, P (PyInt z)) ->
  (forall f, P (PyFloat_ f)) ->
  (forall s, P (PyStr s)) ->
  (forall l, Forall P l -> P (PyList l)) ->
  (forall d, Forall (fun kv => P (snd kv)) d -> P (PyDict d)) ->
  forall o, P o.
Proof.
  intros HN HB HI HF HS HL HD.
  fix IH 1. intros [|b|z|f|s|l|d].
  - exact HN.
  - apply HB.
  - apply HI.
  - apply HF.
  - apply HS.
  - apply HL. induction l as [|v l IHl]; constructor; [apply IH|exact IHl].
  - apply HD. induction d as [|[k v] d IHd]; constructor;
      [apply IH|exact IHd].
Qed.

End Dicts.

Section RoundTrip.
Context {F : PyFloat} {L : PyFloatLaws F}.

Lemma value_start_cases (c : N) :
  value_start c = true ->
  is_ws c = false /\ N.eqb c 93 = false /\ N.eqb c 125 = false
  /\ N.eqb c 44 = false /\ N.eqb c 65279 = false.
Proof.
  unfold value_start. rewrite orb_true_iff. intros [H|H].
  - unfold is_digit in H. apply andb_true_iff in H as [H1 H2].
    apply N.leb_le in H1. apply N.leb_le in H2. unfold is_ws.
    repeat split; rewrite ?orb_false_iff; repeat split;
      apply N.eqb_neq; lia.
  - apply existsb_exists in H as (x & Hx & He). apply N.eqb_eq in He.
    subst x. simpl in Hx.
    repeat (destruct Hx as [<-|Hx]; [repeat split; reflexivity|]).
    contradiction.
Qed.

Lemma dumps_head (o : pyval) :
  exists c t, json_dumps o = c :: t /\ value_start c = true.
Proof.
  destruct o as [|[|]|z|f|s|[|v l]|[|kv d]];
    try (eexists _, _; split; [reflexivity|reflexivity]).
  - destruct (int_repr_head z) as (c & t & Hz & Hc). exists c, t.
    split; [exact Hz|]. now apply number_head_cases.
  - cbn [json_dumps]. unfold floatstr.
    destruct (float_classify f) eqn:Hf;
      try (eexists _, _; split; [reflexivity|reflexivity]).
    destruct (float_literal_spec _ (repr_finite f Hf))
      as (_ & (c & t & Hr & Hc) & _).
    exists c, t. split; [exact Hr|]. now apply number_head_cases.
Qed.

Lemma skip_ws_value (o : pyval) (r : pystr) :
  skip_ws (json_dumps o ++ r) = json_dumps o ++ r.
Proof.
  destruct (dumps_head o) as (c & t & -> & Hc).
  destruct (value_start_cases c Hc) as (Hws & _).
  cbn [app skip_ws]. now rewrite Hws.
Qed.

Lemma delim_next_stop (rest : pystr) :
  delim_next rest = true -> number_stop rest = true.
Proof.
  destruct rest as [|c rest]; [reflexivity|]. simpl.
  rewrite !orb_true_iff, !N.eqb_eq. intros [[-> | ->] | ->]; reflexivity.
Qed.

End RoundTrip.

Section RoundTripValues.
Context {F : PyFloat} {L : PyFloatLaws F}.

Lemma array_items_step (fuel : nat) (s r : pystr) (v : pyval) :
  scan_once fuel s = Some (v, r) ->
  array_items (S fuel) s
  = match next_is 93 (skip_ws r), next_is 44 (skip_ws r) with
    | Some r', _ => Some ([v], r')
    | None, Some r' =>
        match array_items fuel (skip_ws r') with
        | Some (values, r'') => Some (v :: values, r'')
        | None => None
        end
    | None, None => None
    end.
Proof. intros H. cbn [array_items]. now rewrite H. Qed.

Lemma skip_ws_join (v : pyval) (l : list pyval) (R : pystr) :
  skip_ws (join (lit ", ") (map json_dumps (v :: l)) ++ R)
  = join (lit ", ") (map json_dumps (v :: l)) ++ R.
Proof.
  destruct l as [|v' l]; cbn [map join]; rewrite <- ?app_assoc;
    apply skip_ws_value.
Qed.

Lemma array_items_dumps (l : list pyval) :
  Forall reads_back l -> l <> [] ->
  forall fuel rest,
    (fold_right (fun v n => S (Nat.max (fuel_of v) n)) O l <= fuel)%nat ->
    array_items fuel (join (lit ", ") (map json_dumps l) ++ 93%N :: rest)
    = Some (l, rest).
Proof.
  induction l as [|v l IH]; [congruence|]. intros HF _ fuel rest Hfuel.
  inversion HF as [|? ? Hv Hl]; subst.
  destruct fuel as [|fuel]; [simpl in Hfuel; lia|].
  cbn [fold_right] in Hfuel.
  destruct l as [|v' l'].
  - cbn [map join].
    rewrite (array_items_step fuel _ (93%N :: rest) v).
    2:{ apply Hv; [cbn [fold_right] in Hfuel; lia|reflexivity]. }
    reflexivity.
  - change (join (lit ", ") (map json_dumps (v :: v' :: l')))
      with (json_dumps v
            ++ lit ", " ++ join (lit ", ") (map json_dumps (v' :: l'))).
    rewrite <- !app_assoc.
    set (J := join (lit ", ") (map json_dumps (v' :: l')) ++ 93%N :: rest).
    rewrite (array_items_step fuel _ (44%N :: 32%N :: J) v).
    2:{ apply Hv; [lia|reflexivity]. }
    change (skip_ws (44%N :: 32%N :: J)) with (44%N :: 32%N :: J).
    cbn [next_is N.eqb Pos.eqb].
    change (skip_ws (32%N :: J)) with (skip_ws J).
    unfold J. rewrite skip_ws_join.
    rewrite IH; [reflexivity|exact Hl|discriminate|lia].
Qed.

Lemma object_items_step (fuel : nat) (k s r r1 r2 : pystr) (v : pyval) :
  scanstring s = Some (k, r) ->
  next_is 58 (skip_ws r) = Some r1 ->
  scan_once fuel (skip_ws r1) = Some (v, r2) ->
  object_items (S fuel) s
  = match next_is 125 (skip_ws r2), next_is 44 (skip_ws r2) with
    | Some r3, _ => Some ([(k, v)], r3)
    | None, Some r3 =>
        match next_is 34 (skip_ws r3) with
        | Some r4 =>
            match object_items fuel r4 with
            | Some (pairs, r5) => Some ((k, v) :: pairs, r5)
            | None => None
            end
        | None => None
        end
    | None, None => None
    end.
Proof. intros H1 H2 H3. cbn [object_items]. now rewrite H1, H2, H3. Qed.

Lemma join_items_cons (k : pystr) (v : pyval) (ps : list (pystr * pyval)) :
  join (lit ", ")
    (map (fun kv => encode_basestring_ascii (fst kv)
                    ++ lit ": " ++ json_dumps (snd kv)) ((k, v) :: ps))
  = 34%N :: flat_map encode_char k ++ 34%N :: 58%N :: 32%N :: json_dumps v
    ++ match ps with
       | [] => []
       | _ => 44%N :: 32%N
              :: join (lit ", ")
                   (map (fun kv => encode_basestring_ascii (fst kv)
                                   ++ lit ": " ++ json_dumps (snd kv)) ps)
       end.
Proof.
  destruct ps as [|kv ps]; cbn [map join fst snd];
    unfold encode_basestring_ascii at 1; cbn [app];
    rewrite <- !app_assoc; cbn [app]; rewrite ?app_nil_r; reflexivity.
Qed.

Lemma object_items_dumps (ps : list (pystr * pyval)) :
  Forall (fun kv => wf_str (fst kv) = true /\ reads_back (snd kv)) ps ->
  forall k v fuel rest,
    wf_str k = true -> reads_back v ->
    (S (Nat.max (fuel_of v)
          (fold_right (fun kv n => S (Nat.max (fuel_of (snd kv)) n)) O ps))
     <= fuel)%nat ->
    object_items fuel
      (flat_map encode_char k ++ 34%N :: 58%N :: 32%N :: json_dumps v
       ++ match ps with
          | [] => []
          | _ => 44%N :: 32%N
                 :: join (lit ", ")
                      (map (fun kv => encode_basestring_ascii (fst kv)
                                      ++ lit ": " ++ json_dumps (snd kv)) ps)
          end ++ 125%N :: rest)
    = Some ((k, v) :: ps, rest).
Proof.
  induction ps as [|[k' v'] ps IH]; intros HF k v fuel rest Hk Hv Hfuel;
    (destruct fuel as [|fuel]; [lia|]).
  - cbn [app].
    rewrite (object_items_step fuel k _
               (58%N :: 32%N :: json_dumps v ++ 125%N :: rest)
               (32%N :: json_dumps v ++ 125%N :: rest)
               (125%N :: rest) v
               (scanstring_encoded k _ Hk) eq_refl).
    + reflexivity.
    + change (skip_ws (32%N :: json_dumps v ++ 125%N :: rest))
        with (skip_ws (json_dumps v ++ 125%N :: rest)).
      rewrite skip_ws_value. apply Hv; [lia|reflexivity].
  - inversion HF as [|? ? [Hk' Hv'] Hps]; subst. cbn [fst snd] in Hk', Hv'.
    cbn [fold_right snd] in Hfuel.
    set (J := join (lit ", ")
                (map (fun kv => encode_basestring_ascii (fst kv)
                                ++ lit ": " ++ json_dumps (snd kv))
                   ((k', v') :: ps))).
    change ((44%N :: 32%N :: J) ++ 125%N :: rest)
      with (44%N :: 32%N :: J ++ 125%N :: rest).
    rewrite (object_items_step fuel k _
               (58%N :: 32%N :: json_dumps v
                ++ 44%N :: 32%N :: J ++ 125%N :: rest)
               (32%N :: json_dumps v ++ 44%N :: 32%N :: J ++ 125%N :: rest)
               (44%N :: 32%N :: J ++ 125%N :: rest) v
               (scanstring_encoded k _ Hk) eq_refl).
    2:{ change (skip_ws (32%N :: json_dumps v
                         ++ 44%N :: 32%N :: J ++ 125%N :: rest))
          with (skip_ws (json_dumps v ++ 44%N :: 32%N :: J ++ 125%N :: rest)).
        rewrite skip_ws_value. apply Hv; [lia|reflexivity]. }
    change (skip_ws (44%N :: 32%N :: J ++ 125%N :: rest))
      with (44%N :: 32%N :: J ++ 125%N :: rest).
    cbn [next_is N.eqb Pos.eqb].
    change (skip_ws (32%N :: J ++ 125%N :: rest))
      with (skip_ws (J ++ 125%N :: rest)).
    unfold J. rewrite join_items_cons.
    set (T := match ps with
              | [] => []
              | _ :: _ => 44%N :: 32%N :: join (lit ", ")
                   (map (fun kv => encode_basestring_ascii (fst kv)
                                   ++ lit ": " ++ json_dumps (snd kv)) ps)
              end).
    change ((34%N :: flat_map encode_char k'
             ++ 34%N :: 58%N :: 32%N :: json_dumps v' ++ T) ++ 125%N :: rest)
      with (34%N :: (flat_map encode_char k'
             ++ 34%N :: 58%N :: 32%N :: json_dumps v' ++ T) ++ 125%N :: rest).
    cbn [skip_ws is_ws N.eqb Pos.eqb orb next_is].
    rewrite <- app_assoc. cbn [app]. rewrite <- app_assoc.
    unfold T. rewrite IH; [reflexivity|exact Hps|exact Hk'|exact Hv'|lia].
Qed.

End RoundTripValues.

Section RoundTripTop.
Context {F : PyFloat} {L : PyFloatLaws F}.

(** The scanner reads a well-formed value back from its printed form. *)
Lemma scan_once_dumps (o : pyval) :
  wf_json o = true ->
  forall fuel rest, (fuel_of o <= fuel)%nat -> delim_next rest = true ->
    scan_once fuel (json_dumps o ++ rest) = Some (o, rest).
Proof.
  induction o as [|b|z|f|s|l IHl|d IHd] using pyval_ind';
    intros Hwf fuel rest Hfuel Hrest;
    (destruct fuel as [|fuel]; [simpl in Hfuel; lia|]).
  - reflexivity.
  - destruct b; reflexivity.
  - apply scan_once_int, delim_next_stop, Hrest.
  - apply scan_once_float; [|apply delim_next_stop, Hrest].
    cbn [wf_json] in Hwf. intros Hn. rewrite Hn in Hwf. discriminate.
  - cbn [json_dumps wf_json] in *. unfold encode_basestring_ascii.
    change ((34%N :: flat_map encode_char s ++ [34%N]) ++ rest)
      with (34%N :: (flat_map encode_char s ++ [34%N]) ++ rest).
    rewrite <- app_assoc. cbn [app scan_once N.eqb Pos.eqb].
    now rewrite scanstring_encoded.
  - destruct l as [|v l]; [reflexivity|].
    cbn [wf_json] in Hwf. cbn [fuel_of] in Hfuel.
    change (json_dumps (PyList (v :: l)) ++ rest)
      with (91%N :: (join (lit ", ") (map json_dumps (v :: l)) ++ lit "]")
                    ++ rest).
    rewrite <- app_assoc.
    change (lit "]" ++ rest) with (93%N :: rest).
    cbn [scan_once N.eqb Pos.eqb]. rewrite skip_ws_join.
    assert (Hhead : next_is 93
              (join (lit ", ") (map json_dumps (v :: l)) ++ 93%N :: rest)
            = None).
    { destruct (dumps_head v) as (c & t & Hv & Hc).
      destruct (value_start_cases c Hc) as (_ & H93 & _).
      destruct l; cbn [map join]; rewrite Hv; cbn [app next_is];
        now rewrite H93. }
    rewrite Hhead, array_items_dumps; [reflexivity| |discriminate|lia].
    apply Forall_forall. intros x Hx.
    rewrite Forall_forall in IHl. unfold reads_back. apply IHl; [exact Hx|].
    rewrite forallb_forall in Hwf. now apply Hwf.
  - destruct d as [|[k v] ps]; [reflexivity|].
    cbn [wf_json map fst snd forallb] in Hwf. cbn [fuel_of] in Hfuel.
    apply andb_true_iff in Hwf as [Hkeys Hwf].
    apply andb_true_iff in Hwf as [Hkv Hps].
    apply andb_true_iff in Hkv as [Hk Hv].
    change (json_dumps (PyDict ((k, v) :: ps)) ++ rest)
      with (123%N :: (join (lit ", ")
                        (map (fun kv => encode_basestring_ascii (fst kv)
                                        ++ lit ": " ++ json_dumps (snd kv))
                           ((k, v) :: ps)) ++ lit "}") ++ rest).
    rewrite <- app_assoc. change (lit "}" ++ rest) with (125%N :: rest).
    rewrite join_items_cons. cbn [app scan_once N.eqb Pos.eqb].
    cbn [skip_ws is_ws N.eqb Pos.eqb orb next_is].
    rewrite <- app_assoc. cbn [app]. rewrite <- app_assoc.
    inversion IHd as [|? ? IHv IHps]; subst. cbn [snd] in IHv.
    rewrite object_items_dumps.
    + now rewrite (dict_of_pairs_distinct ((k, v) :: ps)).
    + apply Forall_forall. intros kv Hkv'.
      rewrite Forall_forall in IHps. rewrite forallb_forall in Hps.
      specialize (Hps kv Hkv'). apply andb_true_iff in Hps as [Hk' Hv'].
      split; [exact Hk'|]. unfold reads_back. now apply IHps.
    + exact Hk.
    + unfold reads_back. now apply IHv.
    + cbn [fold_right snd] in Hfuel. lia.
Qed.

Lemma dumps_length (o : pyval) : (1 <= List.length (json_dumps o))%nat.
Proof. destruct (dumps_head o) as (c & t & -> & _). simpl. lia. Qed.

Lemma fuel_of_length (o : pyval) :
  (fuel_of o <= List.length (json_dumps o))%nat.
Proof.
  induction o as [|b|z|f|s|l IHl|d IHd] using pyval_ind';
    try (apply (dumps_length PyNone)); try (apply (dumps_length (PyBool b)));
    try (apply (dumps_length (PyInt z)));
    try (apply (dumps_length (PyFloat_ f)));
    try (apply (dumps_length (PyStr s))).
  - destruct l as [|v l]; [simpl; lia|].
    assert (H : (fold_right (fun v n => S (Nat.max (fuel_of v) n)) O (v :: l)
                 <= 1 + List.length (join (lit ", ")
                                       (map json_dumps (v :: l))))%nat).
    { clear -IHl. revert v IHl. induction l as [|v' l IH]; intros v HF;
        inversion HF as [|? ? Hv Hl]; subst.
      - cbn [fold_right map join]. lia.
      - specialize (IH v' Hl).
        change (join (lit ", ") (map json_dumps (v :: v' :: l)))
          with (json_dumps v ++ lit ", "
                ++ join (lit ", ") (map json_dumps (v' :: l))).
        rewrite !length_app. cbn [fold_right] in *.
        change (List.length (lit ", ")) with 2%nat. lia. }
    change (json_dumps (PyList (v :: l)))
      with (91%N :: join (lit ", ") (map json_dumps (v :: l)) ++ lit "]").
    cbn [fuel_of List.length]. rewrite length_app.
    change (List.length (lit "]")) with 1%nat. lia.
  - destruct d as [|kv d]; [simpl; lia|].
    set (item := fun kv : pystr * pyval =>
                   encode_basestring_ascii (fst kv)
                   ++ lit ": " ++ json_dumps (snd kv)).
    assert (H : (fold_right (fun kv n => S (Nat.max (fuel_of (snd kv)) n)) O
                   (kv :: d)
                 <= 1 + List.length (join (lit ", ") (map item (kv :: d))))%nat).
    { clear -IHd. revert kv IHd. induction d as [|kv' d IH]; intros kv HF;
        inversion HF as [|? ? Hv Hl]; subst.
      - cbn [fold_right map join]. unfold item. rewrite !length_app. lia.
      - specialize (IH kv' Hl).
        change (join (lit ", ") (map item (kv :: kv' :: d)))
          with (item kv ++ lit ", " ++ join (lit ", ") (map item (kv' :: d))).
        rewrite !length_app. cbn [fold_right] in *.
        change (List.length (lit ", ")) with 2%nat.
        assert ((fuel_of (snd kv) <= List.length (item kv))%nat).
        { unfold item. rewrite !length_app. lia. }
        lia. }
    change (json_dumps (PyDict (kv :: d)))
      with (123%N :: join (lit ", ") (map item (kv :: d)) ++ lit "}").
    cbn [fuel_of List.length]. rewrite length_app.
    change (List.length (lit "}")) with 1%nat. lia.
Qed.

(** Parsing what [json.dumps] wrote gives the value back. *)
Lemma json_loads_dumps (o : pyval) :
  wf_json o = true -> json_loads (json_dumps o) = Some o.
Proof.
  intros Hwf. unfold json_loads.
  destruct (dumps_head o) as (c & t & Ho & Hc).
  destruct (value_start_cases c Hc) as (_ & _ & _ & _ & Hbom).
  assert (next_is 65279 (json_dumps o) = None) as ->.
  { rewrite Ho. cbn [next_is]. now rewrite Hbom. }
  pose proof (skip_ws_value o []) as Hskip. rewrite app_nil_r in Hskip.
  rewrite Hskip.
  pose proof (scan_once_dumps o Hwf (2 * List.length (json_dumps o) + 2) [])
    as Hscan.
  rewrite app_nil_r in Hscan. rewrite Hscan; [reflexivity| |reflexivity].
  pose proof (fuel_of_length o). lia.
Qed.

End RoundTripTop.

(* ================================================================== *)
(** * The fuel of the decoder is enough *)
(* ================================================================== *)

(** The decoder reads a prefix of its input, so the recursion of Python's
    scanner ends, and with fuel above twice the length of the input the
    result of [scan_once] no longer depends on the fuel: [json_loads] never
    fails for want of it. *)

Section Fuel.
Context {F : PyFloat}.

Lemma next_is_length (c : N) (s r : pystr) :
  next_is c s = Some r -> List.length s = S (List.length r).
Proof. intros H. apply next_is_spec in H. now subst. Qed.

Lemma strip_prefix_length (p s r : pystr) :
  strip_prefix p s = Some r ->
  List.length s = (List.length p + List.length r)%nat.
Proof.
  revert s. induction p as [|x p IH]; intros s; simpl.
  - now intros [= ->].
  - destruct s as [|y s]; [discriminate|].
    destruct (N.eqb x y); [|discriminate]. intros H. simpl.
    now rewrite (IH _ H).
Qed.

Lemma skip_ws_length (s : pystr) :
  (List.length (skip_ws s) <= List.length s)%nat.
Proof.
  induction s as [|c t IH]; simpl; [lia|].
  destruct (is_ws c); simpl; lia.
Qed.

Lemma decode_uXXXX_length (s r : pystr) (u : N) :
  decode_uXXXX s = Some (u, r) -> List.length s = (4 + List.length r)%nat.
Proof.
  unfold decode_uXXXX.
  destruct s as [|a [|b [|c [|d t]]]]; try discriminate.
  destruct (hex_val a), (hex_val b), (hex_val c), (hex_val d);
    try discriminate.
  now intros [= _ ->].
Qed.

Lemma join_surrogates_length (u ch : N) (r2 r5 : pystr) :
  join_surrogates u r2 = Some (ch, r5) ->
  (List.length r5 <= List.length r2)%nat.
Proof.
  unfold join_surrogates.
  destruct (is_high_surrogate u); [|intros [= _ ->]; lia].
  destruct (strip_prefix [92%N; 117%N] r2) as [r3|] eqn:Hp;
    [|intros [= _ ->]; lia].
  apply strip_prefix_length in Hp.
  destruct (decode_uXXXX r3) as [[u2 r4]|] eqn:Hd; [|discriminate].
  apply decode_uXXXX_length in Hd.
  destruct (is_low_surrogate u2); intros [= _ <-]; simpl in *; lia.
Qed.

Lemma scan_chars_length (fuel : nat) (s t r : pystr) :
  scan_chars fuel s = Some (t, r) -> (List.length r < List.length s)%nat.
Proof.
  revert s t r. induction fuel as [|fuel IH]; intros s t r; [discriminate|].
  cbn [scan_chars]. destruct s as [|c s]; [discriminate|].
  destruct (N.eqb c 34); [intros [= _ ->]; simpl; lia|].
  destruct (N.eqb c 92).
  - destruct s as [|esc r1]; [discriminate|].
    destruct (N.eqb esc 117).
    + destruct (decode_uXXXX r1) as [[u r2]|] eqn:Hd; [|discriminate].
      apply decode_uXXXX_length in Hd.
      destruct (join_surrogates u r2) as [[ch r5]|] eqn:Hj; [|discriminate].
      apply join_surrogates_length in Hj.
      destruct (scan_chars fuel r5) as [[t' r6]|] eqn:Hs; [|discriminate].
      apply IH in Hs. intros [= _ <-]. simpl. lia.
    + destruct (backslash esc); [|discriminate].
      destruct (scan_chars fuel r1) as [[t' r6]|] eqn:Hs; [|discriminate].
      apply IH in Hs. intros [= _ <-]. simpl. lia.
  - destruct (N.ltb c 32); [discriminate|].
    destruct (scan_chars fuel s) as [[t' r6]|] eqn:Hs; [|discriminate].
    apply IH in Hs. intros [= _ <-]. simpl. lia.
Qed.

(** [scanstring] gives itself the length of its input as fuel; more makes
    no difference. *)
Lemma scan_chars_fuel (f1 f2 : nat) (s : pystr) :
  (List.length s <= f1)%nat -> (List.length s <= f2)%nat ->
  scan_chars f1 s = scan_chars f2 s.
Proof.
  revert f2 s. induction f1 as [|f1 IH]; intros f2 s H1 H2.
  - destruct s; [|simpl in H1; lia]. now destruct f2.
  - destruct f2 as [|f2]; [destruct s; [reflexivity|simpl in H2; lia]|].
    cbn [scan_chars]. destruct s as [|c s]; [reflexivity|].
    simpl in H1, H2.
    destruct (N.eqb c 34); [reflexivity|].
    destruct (N.eqb c 92).
    + destruct s as [|esc r1]; [reflexivity|]. simpl in H1, H2.
      destruct (N.eqb esc 117).
      * destruct (decode_uXXXX r1) as [[u r2]|] eqn:Hd; [|reflexivity].
        apply decode_uXXXX_length in Hd.
        destruct (join_surrogates u r2) as [[ch r5]|] eqn:Hj; [|reflexivity].
        apply join_surrogates_length in Hj.
        rewrite (IH f2 r5) by lia. reflexivity.
      * destruct (backslash esc); [|reflexivity].
        rewrite (IH f2 r1) by lia. reflexivity.
    + destruct (N.ltb c 32); [reflexivity|].
      rewrite (IH f2 s) by lia. reflexivity.
Qed.

Lemma scanstring_length (s t r : pystr) :
  scanstring s = Some (t, r) -> (List.length r < List.length s)%nat.
Proof. apply scan_chars_length. Qed.

Lemma scan_atom_length (s r : pystr) (v : pyval) :
  scan_atom s = Some (v, r) -> (List.length r < List.length s)%nat.
Proof.
  unfold scan_atom.
  destruct (strip_prefix (lit "null") s) as [r1|] eqn:H1.
  { apply strip_prefix_length in H1. intros [= _ <-].
    change (List.length (lit "null")) with 4%nat in H1. lia. }
  destruct (strip_prefix (lit "true") s) as [r2|] eqn:H2.
  { apply strip_prefix_length in H2. intros [= _ <-].
    change (List.length (lit "true")) with 4%nat in H2. lia. }
  destruct (strip_prefix (lit "false") s) as [r3|] eqn:H3.
  { apply strip_prefix_length in H3. intros [= _ <-].
    change (List.length (lit "false")) with 5%nat in H3. lia. }
  destruct (match_number s) as [[[[i f] e] r']|] eqn:Hm.
  { destruct (match_number_spec _ _ _ _ _ Hm) as (Hs & _ & c & t & -> & _).
    assert (List.length r' < List.length s)%nat.
    { rewrite Hs. simpl. rewrite !length_app. lia. }
    destruct (is_nil f && is_nil e); now intros [= _ <-]. }
  destruct (strip_prefix (lit "NaN") s) as [r4|] eqn:H4.
  { apply strip_prefix_length in H4. intros [= _ <-].
    change (List.length (lit "NaN")) with 3%nat in H4. lia. }
  destruct (strip_prefix (lit "Infinity") s) as [r5|] eqn:H5.
  { apply strip_prefix_length in H5. intros [= _ <-].
    change (List.length (lit "Infinity")) with 8%nat in H5. lia. }
  destruct (strip_prefix (lit "-Infinity") s) as [r6|] eqn:H6;
    [|discriminate].
  apply strip_prefix_length in H6. intros [= _ <-].
  change (List.length (lit "-Infinity")) with 9%nat in H6. lia.
Qed.

(** Whatever the scanner reads, it reads from the front of its input. *)
Lemma scanner_length (fuel : nat) :
  (forall s v r, scan_once fuel s = Some (v, r) ->
                 (List.length r < List.length s)%nat)
  /\ (forall s vs r, array_items fuel s = Some (vs, r) ->
                     (List.length r < List.length s)%nat)
  /\ (forall s ps r, object_items fuel s = Some (ps, r) ->
                     (List.length r < List.length s)%nat).
Proof.
  induction fuel as [|fuel (IHv & IHa & IHo)];
    [repeat split; discriminate|].
  repeat split.
  - intros s v r. cbn [scan_once]. destruct s as [|c s]; [discriminate|].
    destruct (N.eqb c 34).
    { destruct (scanstring s) as [[t r']|] eqn:Hs; [|discriminate].
      apply scanstring_length in Hs. intros [= _ <-]. simpl. lia. }
    pose proof (skip_ws_length s) as Hws.
    destruct (N.eqb c 123).
    { destruct (next_is 125 (skip_ws s)) as [r1|] eqn:H1.
      { apply next_is_length in H1. intros [= _ <-]. simpl. lia. }
      destruct (next_is 34 (skip_ws s)) as [r2|] eqn:H2; [|discriminate].
      apply next_is_length in H2.
      destruct (object_items fuel r2) as [[ps r3]|] eqn:Ho; [|discriminate].
      apply IHo in Ho. intros [= _ <-]. simpl. lia. }
    destruct (N.eqb c 91).
    { destruct (next_is 93 (skip_ws s)) as [r1|] eqn:H1.
      { apply next_is_length in H1. intros [= _ <-]. simpl. lia. }
      destruct (array_items fuel (skip_ws s)) as [[vs r3]|] eqn:Ha;
        [|discriminate].
      apply IHa in Ha. intros [= _ <-]. simpl. lia. }
    apply scan_atom_length.
  - intros s vs r. cbn [array_items].
    destruct (scan_once fuel s) as [[v r0]|] eqn:Hv; [|discriminate].
    apply IHv in Hv. pose proof (skip_ws_length r0) as Hws.
    destruct (next_is 93 (skip_ws r0)) as [r1|] eqn:H1.
    { apply next_is_length in H1. intros [= _ <-]. lia. }
    destruct (next_is 44 (skip_ws r0)) as [r2|] eqn:H2; [|discriminate].
    apply next_is_length in H2. pose proof (skip_ws_length r2) as Hws2.
    destruct (array_items fuel (skip_ws r2)) as [[vs' r3]|] eqn:Ha;
      [|discriminate].
    apply IHa in Ha. intros [= _ <-]. lia.
  - intros s ps r. cbn [object_items].
    destruct (scanstring s) as [[k r0]|] eqn:Hk; [|discriminate].
    apply scanstring_length in Hk. pose proof (skip_ws_length r0) as Hws.
    destruct (next_is 58 (skip_ws r0)) as [r1|] eqn:H1; [|discriminate].
    apply next_is_length in H1. pose proof (skip_ws_length r1) as Hws1.
    destruct (scan_once fuel (skip_ws r1)) as [[v r2]|] eqn:Hv;
      [|discriminate].
    apply IHv in Hv. pose proof (skip_ws_length r2) as Hws2.
    destruct (next_is 125 (skip_ws r2)) as [r3|] eqn:H3.
    { apply next_is_length in H3. intros [= _ <-]. lia. }
    destruct (next_is 44 (skip_ws r2)) as [r4|] eqn:H4; [|discriminate].
    apply next_is_length in H4. pose proof (skip_ws_length r4) as Hws4.
    destruct (next_is 34 (skip_ws r4)) as [r5|] eqn:H5; [|discriminate].
    apply next_is_length in H5.
    destruct (object_items fuel r5) as [[ps' r6]|] eqn:Ho; [|discriminate].
    apply IHo in Ho. intros [= _ <-]. lia.
Qed.

(** Above twice the length of the input, the fuel does not matter. *)
Lemma scanner_fuel (f1 : nat) :
  forall f2,
  (forall s, (2 * List.length s <= f1)%nat -> (2 * List.length s <= f2)%nat ->
             scan_once f1 s = scan_once f2 s)
  /\ (forall s, (2 * List.length s + 1 <= f1)%nat ->
                (2 * List.length s + 1 <= f2)%nat ->
                array_items f1 s = array_items f2 s)
  /\ (forall s, (2 * List.length s + 1 <= f1)%nat ->
                (2 * List.length s + 1 <= f2)%nat ->
                object_items f1 s = object_items f2 s).
Proof.
  induction f1 as [|f1 IH]; intros f2.
  - repeat split; intros s H1 H2; try lia.
    destruct s; [|simpl in H1; lia]. now destruct f2.
  - destruct f2 as [|f2].
    { repeat split; intros s H1 H2; try lia.
      destruct s; [reflexivity|simpl in H2; lia]. }
    destruct (IH f2) as (IHv & IHa & IHo).
    destruct (scanner_length f2) as (Lv & La & Lo).
    repeat split; intros s H1 H2.
    + cbn [scan_once]. destruct s as [|c s]; [reflexivity|].
      simpl in H1, H2. pose proof (skip_ws_length s) as Hws.
      destruct (N.eqb c 34); [reflexivity|].
      destruct (N.eqb c 123).
      { destruct (next_is 125 (skip_ws s)); [reflexivity|].
        destruct (next_is 34 (skip_ws s)) as [r2|] eqn:H34; [|reflexivity].
        apply next_is_length in H34. rewrite (IHo r2) by lia. reflexivity. }
      destruct (N.eqb c 91); [|reflexivity].
      destruct (next_is 93 (skip_ws s)); [reflexivity|].
      rewrite (IHa (skip_ws s)) by lia. reflexivity.
    + cbn [array_items]. rewrite (IHv s) by lia.
      destruct (scan_once f2 s) as [[v r0]|] eqn:Hv; [|reflexivity].
      apply Lv in Hv. pose proof (skip_ws_length r0) as Hws.
      destruct (next_is 93 (skip_ws r0)); [reflexivity|].
      destruct (next_is 44 (skip_ws r0)) as [r2|] eqn:H44; [|reflexivity].
      apply next_is_length in H44. pose proof (skip_ws_length r2) as Hws2.
      rewrite (IHa (skip_ws r2)) by lia. reflexivity.
    + cbn [object_items].
      destruct (scanstring s) as [[k r0]|] eqn:Hk; [|reflexivity].
      apply scanstring_length in Hk. pose proof (skip_ws_length r0) as Hws.
      destruct (next_is 58 (skip_ws r0)) as [r1|] eqn:H58; [|reflexivity].
      apply next_is_length in H58. pose proof (skip_ws_length r1) as Hws1.
      rewrite (IHv (skip_ws r1)) by lia.
      destruct (scan_once f2 (skip_ws r1)) as [[v r2]|] eqn:Hv; [|reflexivity].
      apply Lv in Hv. pose proof (skip_ws_length r2) as Hws2.
      destruct (next_is 125 (skip_ws r2)); [reflexivity|].
      destruct (next_is 44 (skip_ws r2)) as [r4|] eqn:H44; [|reflexivity].
      apply next_is_length in H44. pose proof (skip_ws_length r4) as Hws4.
      destruct (next_is 34 (skip_ws r4)) as [r5|] eqn:H34; [|reflexivity].
      apply next_is_length in H34. rewrite (IHo r5) by lia. reflexivity.
Qed.

(** [json_loads] with any larger fuel gives the same result. *)
Lemma json_loads_fuel (s : pystr) (fuel : nat) :
  (2 * List.length s + 2 <= fuel)%nat ->
  json_loads s
  = match next_is 65279 s with
    | Some _ => None
    | None =>
        match scan_once fuel (skip_ws s) with
        | Some (v, r) => if is_nil (skip_ws r) then Some v else None
        | None => None
        end
    end.
Proof.
  intros Hfuel. unfold json_loads.
  destruct (next_is 65279 s); [reflexivity|].
  pose proof (skip_ws_length s) as Hws.
  destruct (scanner_fuel (2 * List.length s + 2) fuel) as (Hv & _).
  rewrite (Hv (skip_ws s)) by lia. reflexivity.
Qed.

End Fuel.

(* ================================================================== *)
(** * What the decoder builds *)
(* ================================================================== *)

(** From a text of Unicode scalar values the decoder builds strings with no
    high surrogate directly before a low one, and dicts with each key
    once: the values it returns are well formed, but for NaN. *)

Section DecodedText.
Local Open Scope N_scope.

Lemma hex_val_bound (c v : N) : hex_val c = Some v -> v < 16.
Proof.
  unfold hex_val, is_digit.
  destruct (N.leb_spec 48 c), (N.leb_spec c 57); cbn [andb];
    try (intros [= <-]; lia);
    destruct (N.leb_spec 97 c), (N.leb_spec c 102); cbn [andb];
    try (intros [= <-]; lia);
    destruct (N.leb_spec 65 c), (N.leb_spec c 70); cbn [andb];
    try (intros [= <-]; lia); discriminate.
Qed.

Lemma decode_uXXXX_bound (s r : pystr) (u : N) :
  decode_uXXXX s = Some (u, r) -> u < 65536.
Proof.
  unfold decode_uXXXX.
  destruct s as [|a [|b [|c [|d t]]]]; try discriminate.
  destruct (hex_val a) as [va|] eqn:Ha; [|discriminate].
  destruct (hex_val b) as [vb|] eqn:Hb; [|discriminate].
  destruct (hex_val c) as [vc|] eqn:Hc; [|discriminate].
  destruct (hex_val d) as [vd|] eqn:Hd; [|discriminate].
  apply hex_val_bound in Ha, Hb, Hc, Hd. intros [= <- _]. lia.
Qed.

Lemma decode_uXXXX_rest (s r : pystr) (u : N) :
  decode_uXXXX s = Some (u, r) -> exists p, s = p ++ r.
Proof.
  unfold decode_uXXXX.
  destruct s as [|a [|b [|c [|d t]]]]; try discriminate.
  destruct (hex_val a), (hex_val b), (hex_val c), (hex_val d);
    try discriminate.
  intros [= _ <-]. now exists [a; b; c; d].
Qed.

Lemma strip_prefix_rest (p s r : pystr) :
  strip_prefix p s = Some r -> s = p ++ r.
Proof.
  revert s. induction p as [|x p IH]; intros s; simpl.
  - now intros [= ->].
  - destruct s as [|y s]; [discriminate|].
    destruct (N.eqb_spec x y) as [->|]; [|discriminate].
    intros H. now rewrite (IH _ H).
Qed.

Lemma scalars_suffix (p r : pystr) :
  forallb is_scalar (p ++ r) = true -> forallb is_scalar r = true.
Proof. rewrite forallb_app, andb_true_iff. tauto. Qed.

Lemma scalars_skip_ws (s : pystr) :
  forallb is_scalar s = true -> forallb is_scalar (skip_ws s) = true.
Proof.
  induction s as [|c t IH]; [reflexivity|]. intros H. cbn [skip_ws].
  destruct (is_ws c); [|exact H].
  apply IH. cbn [forallb] in H. now apply andb_true_iff in H as [_ H].
Qed.

Lemma scalars_next_is (c : N) (s r : pystr) :
  next_is c s = Some r -> forallb is_scalar s = true ->
  forallb is_scalar r = true.
Proof.
  intros H. apply next_is_spec in H as ->. cbn [forallb].
  rewrite andb_true_iff. tauto.
Qed.

Lemma scalar_cases (c : N) :
  is_scalar c = true ->
  c < 1114112 /\ is_high_surrogate c = false /\ is_low_surrogate c = false.
Proof.
  unfold is_scalar. rewrite !andb_true_iff, !negb_true_iff, N.ltb_lt. tauto.
Qed.

Lemma backslash_cases (esc ch : N) :
  backslash esc = Some ch ->
  ch < 1114112 /\ is_high_surrogate ch = false
  /\ is_low_surrogate ch = false.
Proof.
  unfold backslash.
  repeat match goal with
  | |- context [if ?b then _ else _] => destruct b
  end; intros [= <-]; repeat split; reflexivity || lia.
Qed.

(** What [join_surrogates] returns: the escaped code point itself, and
    then no escaped low surrogate follows a high one; or a code point
    above the BMP. *)
Lemma join_surrogates_cases (u ch : N) (r2 r5 : pystr) :
  u < 65536 -> join_surrogates u r2 = Some (ch, r5) ->
  (ch = u /\ r5 = r2
   /\ (is_high_surrogate u = true -> low_escape r2 = false))
  \/ (65536 <= ch < 1114112 /\ exists p, r2 = p ++ r5).
Proof.
  intros Hu. unfold join_surrogates, low_escape.
  destruct (is_high_surrogate u) eqn:Hh;
    [|intros [= <- <-]; left; repeat split; discriminate].
  destruct (strip_prefix [92; 117] r2) as [r3|] eqn:Hp;
    [|intros [= <- <-]; left; auto].
  destruct (decode_uXXXX r3) as [[u2 r4]|] eqn:Hd; [|discriminate].
  destruct (is_low_surrogate u2) eqn:Hl;
    [|intros [= <- <-]; left; auto].
  set (j := 65536 + N.lor (N.shiftl (u - 55296) 10) (u2 - 56320)).
  intros [= <- <-]. right.
  apply strip_prefix_rest in Hp.
  destruct (decode_uXXXX_rest _ _ _ Hd) as (p & Hr3).
  split; [|exists ([92; 117] ++ p); rewrite <- app_assoc; congruence].
  unfold is_high_surrogate in Hh. unfold is_low_surrogate in Hl.
  apply andb_true_iff in Hh as [Hh1 Hh2]. apply andb_true_iff in Hl as [Hl1 Hl2].
  apply N.leb_le in Hh1, Hh2, Hl1, Hl2.
  assert (E : 2 ^ 10 = 1024) by reflexivity. unfold j.
  rewrite N.shiftl_mul_pow2, lor_shifted_low by (rewrite E; lia).
  rewrite E. lia.
Qed.

(** The first character [scanstring] decodes is a low surrogate only when
    the text starts with the escape of one. *)
Lemma scan_chars_starts_low (fuel : nat) (s t r : pystr) :
  forallb is_scalar s = true -> low_escape s = false ->
  scan_chars fuel s = Some (t, r) -> starts_low t = false.
Proof.
  destruct fuel as [|fuel]; [discriminate|]. intros Hs Hlow.
  cbn [scan_chars]. destruct s as [|c s]; [discriminate|].
  cbn [forallb] in Hs. apply andb_true_iff in Hs as [Hc Hs].
  destruct (scalar_cases c Hc) as (_ & _ & Hcl).
  destruct (N.eqb c 34); [now intros [= <- _]|].
  destruct (N.eqb_spec c 92) as [->|H92].
  - destruct s as [|esc r1]; [discriminate|].
    destruct (N.eqb_spec esc 117) as [->|H117].
    + unfold low_escape in Hlow. cbn [strip_prefix N.eqb Pos.eqb] in Hlow.
      destruct (decode_uXXXX r1) as [[u r2]|] eqn:Hd; [|discriminate].
      pose proof (decode_uXXXX_bound _ _ _ Hd) as Hu.
      destruct (join_surrogates u r2) as [[ch r5]|] eqn:Hj; [|discriminate].
      destruct (scan_chars fuel r5) as [[t' r6]|]; [|discriminate].
      intros [= <- _]. cbn [starts_low].
      destruct (join_surrogates_cases _ _ _ _ Hu Hj) as [(-> & _)|(Hch & _)];
        [exact Hlow|].
      unfold is_low_surrogate. apply andb_false_iff. right.
      apply N.leb_gt. lia.
    + destruct (backslash esc) as [ch|] eqn:Hb; [|discriminate].
      destruct (scan_chars fuel r1) as [[t' r6]|]; [|discriminate].
      intros [= <- _]. cbn [starts_low].
      now destruct (backslash_cases _ _ Hb) as (_ & _ & ?).
  - destruct (N.ltb c 32); [discriminate|].
    destruct (scan_chars fuel s) as [[t' r6]|]; [|discriminate].
    now intros [= <- _].
Qed.

Lemma scan_chars_wf (fuel : nat) (s t r : pystr) :
  forallb is_scalar s = true -> scan_chars fuel s = Some (t, r) ->
  wf_str t = true /\ forallb is_scalar r = true.
Proof.
  revert s t r. induction fuel as [|fuel IH]; intros s t r Hs; [discriminate|].
  cbn [scan_chars]. destruct s as [|c s]; [discriminate|].
  cbn [forallb] in Hs. apply andb_true_iff in Hs as [Hc Hs].
  destruct (scalar_cases c Hc) as (Hcb & Hch & Hcl).
  destruct (N.eqb c 34); [intros [= <- <-]; auto|].
  destruct (N.eqb c 92).
  - destruct s as [|esc r1]; [discriminate|].
    cbn [forallb] in Hs. apply andb_true_iff in Hs as [_ Hs].
    destruct (N.eqb esc 117).
    + destruct (decode_uXXXX r1) as [[u r2]|] eqn:Hd; [|discriminate].
      pose proof (decode_uXXXX_bound _ _ _ Hd) as Hu.
      destruct (decode_uXXXX_rest _ _ _ Hd) as (p & ->).
      apply scalars_suffix in Hs.
      destruct (join_surrogates u r2) as [[ch r5]|] eqn:Hj; [|discriminate].
      destruct (scan_chars fuel r5) as [[t' r6]|] eqn:Hrec; [|discriminate].
      intros [= <- <-].
      destruct (join_surrogates_cases _ _ _ _ Hu Hj)
        as [(-> & -> & Hlow)|(Hch' & p' & ->)].
      * destruct (IH _ _ _ Hs Hrec) as [Ht Hr]. split; [|exact Hr].
        cbn [wf_str]. rewrite Ht, andb_true_r.
        apply andb_true_iff. split; [apply N.ltb_lt; lia|].
        destruct (is_high_surrogate u) eqn:Hh; [|reflexivity].
        now rewrite (scan_chars_starts_low _ _ _ _ Hs (Hlow eq_refl) Hrec).
      * apply scalars_suffix in Hs.
        destruct (IH _ _ _ Hs Hrec) as [Ht Hr]. split; [|exact Hr].
        cbn [wf_str]. rewrite Ht, andb_true_r.
        apply andb_true_iff. split; [apply N.ltb_lt; lia|].
        assert (is_high_surrogate ch = false) as ->; [|reflexivity].
        unfold is_high_surrogate. apply andb_false_iff. right.
        apply N.leb_gt. lia.
    + destruct (backslash esc) as [ch|] eqn:Hb; [|discriminate].
      destruct (scan_chars fuel r1) as [[t' r6]|] eqn:Hrec; [|discriminate].
      intros [= <- <-]. destruct (IH _ _ _ Hs Hrec) as [Ht Hr].
      split; [|exact Hr].
      destruct (backslash_cases _ _ Hb) as (Hb1 & Hb2 & _).
      cbn [wf_str]. rewrite Ht, Hb2. cbn [andb negb].
      rewrite !andb_true_r. apply N.ltb_lt. exact Hb1.
  - destruct (N.ltb c 32); [discriminate|].
    destruct (scan_chars fuel s) as [[t' r6]|] eqn:Hrec; [|discriminate].
    intros [= <- <-]. destruct (IH _ _ _ Hs Hrec) as [Ht Hr].
    split; [|exact Hr].
    cbn [wf_str]. rewrite Ht, Hch. cbn [andb negb].
    rewrite !andb_true_r. apply N.ltb_lt. exact Hcb.
Qed.

End DecodedText.

Section DecodedValues.
Context {F : PyFloat}.

Lemma scanstring_wf (s t r : pystr) :
  forallb is_scalar s = true -> scanstring s = Some (t, r) ->
  wf_str t = true /\ forallb is_scalar r = true.
Proof. apply scan_chars_wf. Qed.

Lemma scan_atom_shape (s r : pystr) (v : pyval) :
  forallb is_scalar s = true -> scan_atom s = Some (v, r) ->
  wf_shape v = true /\ forallb is_scalar r = true.
Proof.
  intros Hs. unfold scan_atom.
  destruct (strip_prefix (lit "null") s) as [r1|] eqn:H1.
  { apply strip_prefix_rest in H1. subst s. apply scalars_suffix in Hs.
    now intros [= <- <-]. }
  destruct (strip_prefix (lit "true") s) as [r2|] eqn:H2.
  { apply strip_prefix_rest in H2. subst s. apply scalars_suffix in Hs.
    now intros [= <- <-]. }
  destruct (strip_prefix (lit "false") s) as [r3|] eqn:H3.
  { apply strip_prefix_rest in H3. subst s. apply scalars_suffix in Hs.
    now intros [= <- <-]. }
  destruct (match_number s) as [[[[i f] e] r']|] eqn:Hm.
  { destruct (match_number_spec _ _ _ _ _ Hm) as (Hs' & _).
    rewrite Hs', !app_assoc in Hs. apply scalars_suffix in Hs.
    destruct (is_nil f && is_nil e); now intros [= <- <-]. }
  destruct (strip_prefix (lit "NaN") s) as [r4|] eqn:H4.
  { apply strip_prefix_rest in H4. subst s. apply scalars_suffix in Hs.
    now intros [= <- <-]. }
  destruct (strip_prefix (lit "Infinity") s) as [r5|] eqn:H5.
  { apply strip_prefix_rest in H5. subst s. apply scalars_suffix in Hs.
    now intros [= <- <-]. }
  destruct (strip_prefix (lit "-Infinity") s) as [r6|] eqn:H6;
    [|discriminate].
  apply strip_prefix_rest in H6. subst s. apply scalars_suffix in Hs.
  now intros [= <- <-].
Qed.

(** ** [dict(pairs)] has each key once *)

Lemma dict_set_keys (k : pystr) (v : pyval) (d : list (pystr * pyval)) :
  map fst (dict_set k v d)
  = if existsb (pystr_eqb k) (map fst d) then map fst d
    else map fst d ++ [k].
Proof.
  induction d as [|[k' v'] d IH]; [reflexivity|]. cbn [dict_set map fst existsb].
  destruct (pystr_eqb k k'); [reflexivity|]. cbn [map fst orb].
  rewrite IH. now destruct (existsb (pystr_eqb k) (map fst d)).
Qed.

Lemma dict_set_distinct (k : pystr) (v : pyval) (d : list (pystr * pyval)) :
  distinct (map fst d) = true -> distinct (map fst (dict_set k v d)) = true.
Proof.
  intros Hd. rewrite dict_set_keys.
  destruct (existsb (pystr_eqb k) (map fst d)) eqn:Hk; [exact Hd|].
  apply distinct_NoDup. apply distinct_NoDup in Hd.
  apply NoDup_app; [exact Hd|repeat constructor; intros []|].
  intros x Hx [<-|[]].
  apply existsb_eqb_In in Hx. congruence.
Qed.

Lemma dict_set_all (P : pystr * pyval -> bool) (k : pystr) (v : pyval)
    (d : list (pystr * pyval)) :
  P (k, v) = true -> forallb P d = true -> forallb P (dict_set k v d) = true.
Proof.
  intros Hkv. induction d as [|[k' v'] d IH]; cbn [dict_set forallb].
  - now rewrite Hkv.
  - rewrite andb_true_iff. intros [H1 H2].
    destruct (pystr_eqb k k') eqn:He; cbn [forallb].
    + apply pystr_eqb_eq in He. subst k'. now rewrite Hkv, H2.
    + now rewrite H1, (IH H2).
Qed.

Lemma dict_of_pairs_shape (ps : list (pystr * pyval)) :
  forallb (fun kv => wf_str (fst kv) && wf_shape (snd kv)) ps = true ->
  wf_shape (PyDict (dict_of_pairs ps)) = true.
Proof.
  intros Hps. unfold dict_of_pairs.
  assert (Hgen : forall acc,
    wf_shape (PyDict acc) = true ->
    wf_shape (PyDict (fold_left (fun d kv => dict_set (fst kv) (snd kv) d)
                        ps acc)) = true).
  { induction ps as [|[k v] ps IH]; intros acc Hacc; [exact Hacc|].
    cbn [forallb fst snd] in Hps.
    apply andb_true_iff in Hps as [Hkv Hps].
    cbn [fold_left fst snd]. apply (IH Hps).
    cbn [wf_shape] in Hacc |- *.
    apply andb_true_iff in Hacc as [Hd Hall].
    apply andb_true_iff. split; [now apply dict_set_distinct|].
    now apply (dict_set_all
                 (fun kv => wf_str (fst kv) && wf_shape (snd kv))). }
  now apply Hgen.
Qed.

(** ** The scanner *)

Lemma scanner_shape (fuel : nat) :
  (forall s v r, forallb is_scalar s = true ->
     scan_once fuel s = Some (v, r) ->
     wf_shape v = true /\ forallb is_scalar r = true)
  /\ (forall s vs r, forallb is_scalar s = true ->
     array_items fuel s = Some (vs, r) ->
     forallb wf_shape vs = true /\ forallb is_scalar r = true)
  /\ (forall s ps r, forallb is_scalar s = true ->
     object_items fuel s = Some (ps, r) ->
     forallb (fun kv => wf_str (fst kv) && wf_shape (snd kv)) ps = true
     /\ forallb is_scalar r = true).
Proof.
  induction fuel as [|fuel (IHv & IHa & IHo)];
    [repeat split; discriminate|].
  split; [|split].
  - intros s v r Hs. cbn [scan_once]. destruct s as [|c s]; [discriminate|].
    assert (Hs' : forallb is_scalar s = true).
    { cbn [forallb] in Hs. now apply andb_true_iff in Hs as [_ Hs]. }
    pose proof (scalars_skip_ws s Hs') as Hws.
    destruct (N.eqb c 34).
    { destruct (scanstring s) as [[t r']|] eqn:Hk; [|discriminate].
      destruct (scanstring_wf _ _ _ Hs' Hk) as [Ht Hr].
      now intros [= <- <-]. }
    destruct (N.eqb c 123).
    { destruct (next_is 125 (skip_ws s)) as [r1|] eqn:H1.
      { intros [= <- <-]. split; [reflexivity|].
        exact (scalars_next_is _ _ _ H1 Hws). }
      destruct (next_is 34 (skip_ws s)) as [r2|] eqn:H2; [|discriminate].
      pose proof (scalars_next_is _ _ _ H2 Hws) as Hr2.
      destruct (object_items fuel r2) as [[ps r3]|] eqn:Ho; [|discriminate].
      destruct (IHo _ _ _ Hr2 Ho) as [Hps Hr3]. intros [= <- <-].
      split; [now apply dict_of_pairs_shape|exact Hr3]. }
    destruct (N.eqb c 91); [|now apply scan_atom_shape].
    destruct (next_is 93 (skip_ws s)) as [r1|] eqn:H1.
    { intros [= <- <-]. split; [reflexivity|].
      exact (scalars_next_is _ _ _ H1 Hws). }
    destruct (array_items fuel (skip_ws s)) as [[vs r3]|] eqn:Ha;
      [|discriminate].
    destruct (IHa _ _ _ Hws Ha) as [Hvs Hr3]. now intros [= <- <-].
  - intros s vs r Hs. cbn [array_items].
    destruct (scan_once fuel s) as [[v r0]|] eqn:Hv; [|discriminate].
    destruct (IHv _ _ _ Hs Hv) as [Hwv Hr0].
    pose proof (scalars_skip_ws r0 Hr0) as Hws.
    destruct (next_is 93 (skip_ws r0)) as [r1|] eqn:H1.
    { intros [= <- <-]. cbn [forallb]. rewrite Hwv.
      split; [reflexivity|exact (scalars_next_is _ _ _ H1 Hws)]. }
    destruct (next_is 44 (skip_ws r0)) as [r2|] eqn:H2; [|discriminate].
    pose proof (scalars_skip_ws r2 (scalars_next_is _ _ _ H2 Hws)) as Hws2.
    destruct (array_items fuel (skip_ws r2)) as [[vs' r3]|] eqn:Ha;
      [|discriminate].
    destruct (IHa _ _ _ Hws2 Ha) as [Hvs Hr3]. intros [= <- <-].
    cbn [forallb]. now rewrite Hwv, Hvs.
  - intros s ps r Hs. cbn [object_items].
    destruct (scanstring s) as [[k r0]|] eqn:Hk; [|discriminate].
    destruct (scanstring_wf _ _ _ Hs Hk) as [Hwk Hr0].
    pose proof (scalars_skip_ws r0 Hr0) as Hws.
    destruct (next_is 58 (skip_ws r0)) as [r1|] eqn:H1; [|discriminate].
    pose proof (scalars_skip_ws r1 (scalars_next_is _ _ _ H1 Hws)) as Hws1.
    destruct (scan_once fuel (skip_ws r1)) as [[v r2]|] eqn:Hv;
      [|discriminate].
    destruct (IHv _ _ _ Hws1 Hv) as [Hwv Hr2].
    pose proof (scalars_skip_ws r2 Hr2) as Hws2.
    destruct (next_is 125 (skip_ws r2)) as [r3|] eqn:H3.
    { intros [= <- <-]. cbn [forallb fst snd]. rewrite Hwk, Hwv.
      split; [reflexivity|exact (scalars_next_is _ _ _ H3 Hws2)]. }
    destruct (next_is 44 (skip_ws r2)) as [r4|] eqn:H4; [|discriminate].
    pose proof (scalars_skip_ws r4 (scalars_next_is _ _ _ H4 Hws2)) as Hws4.
    destruct (next_is 34 (skip_ws r4)) as [r5|] eqn:H5; [|discriminate].
    pose proof (scalars_next_is _ _ _ H5 Hws4) as Hr5.
    destruct (object_items fuel r5) as [[ps' r6]|] eqn:Ho; [|discriminate].
    destruct (IHo _ _ _ Hr5 Ho) as [Hps Hr6]. intros [= <- <-].
    cbn [forallb fst snd]. now rewrite Hwk, Hwv, Hps.
Qed.

(** What [json_loads] returns from a text of scalar values has the shape
    of a well-formed value. *)
Lemma json_loads_shape (s : pystr) (x : pyval) :
  forallb is_scalar s = true -> json_loads s = Some x -> wf_shape x = true.
Proof.
  intros Hs. unfold json_loads.
  destruct (next_is 65279 s); [discriminate|].
  destruct (scan_once (2 * List.length s + 2) (skip_ws s)) as [[v r]|] eqn:Hv;
    [|discriminate].
  destruct (scanner_shape (2 * List.length s + 2)) as (Hshape & _).
  destruct (Hshape _ _ _ (scalars_skip_ws s Hs) Hv) as [Hx _].
  destruct (is_nil (skip_ws r)); [|discriminate]. now intros [= <-].
Qed.

Lemma wf_json_split (o : pyval) : wf_json o = wf_shape o && nan_free o.
Proof.
  induction o as [|b|z|f|s|l IHl|d IHd] using pyval_ind';
    try reflexivity.
  - cbn [wf_json wf_shape nan_free]. now rewrite andb_true_r.
  - cbn [wf_json wf_shape nan_free].
    induction l as [|v l IH]; [reflexivity|].
    inversion IHl as [|? ? Hv Hl]; subst. cbn [forallb].
    rewrite (IH Hl), Hv.
    destruct (wf_shape v), (nan_free v), (forallb wf_shape l); reflexivity.
  - cbn [wf_json wf_shape nan_free].
    destruct (distinct (map fst d)); [cbn [andb]|reflexivity].
    induction d as [|[k v] d IH]; [reflexivity|].
    inversion IHd as [|? ? Hv Hd]; subst. cbn [forallb fst snd] in *.
    rewrite (IH Hd), Hv.
    destruct (wf_str k), (wf_shape v), (nan_free v),
      (forallb (fun kv => wf_str (fst kv) && wf_shape (snd kv)) d);
      reflexivity.
Qed.

(** A NaN-free value decoded from a text of scalar values is well
    formed. *)
Lemma json_loads_wf (s : pystr) (x : pyval) :
  forallb is_scalar s = true -> json_loads s = Some x ->
  nan_free x = true -> wf_json x = true.
Proof.
  intros Hs Hx Hn.
  now rewrite wf_json_split, (json_loads_shape _ _ Hs Hx), Hn.
Qed.

End DecodedValues.

(* ================================================================== *)
(** * The float model satisfies the laws *)
(* ================================================================== *)

Lemma text_float_of_str_literal (text : pystr)
    (ok : is_float_literal text = true) :
  text_float_of_str text = TFinite text ok.
Proof.
  unfold text_float_of_str.
  generalize (@eq_refl bool (is_float_literal text)).
  generalize (is_float_literal text) at 2 3.
  intros [|] e.
  - f_equal. apply UIP_dec, bool_dec.
  - congruence.
Qed.

#[export] Instance TextFloatLaws : PyFloatLaws TextFloat.
Proof.
  split; simpl.
  - intros [| |text ok]; try discriminate; [destruct negative; discriminate|].
    intros _. exact ok.
  - intros [| |text ok]; try discriminate; [destruct negative; discriminate|].
    intros _. apply text_float_of_str_literal.
  - intros [|[|]|text ok]; try discriminate. reflexivity.
  - intros [|[|]|text ok]; try discriminate. reflexivity.
  - intros [|[|]|text ok]; try discriminate. reflexivity.
  - intros [|[|]|text ok]; try discriminate. reflexivity.
  - intros [|[|]|text ok]; try discriminate. reflexivity.
Qed.

(* ================================================================== *)
(** * The fetcher *)
(* ================================================================== *)

Section Fetcher.
Context {F : PyFloat}.

(** What the fetcher does, by cases on what the network answers. *)
Lemma make_openmeteo_request_run (url : pystr) (net : Network) (w : World) :
  make_openmeteo_request url net w =
  match net (request_for url) with
  | Raise e => (Return PyNone, after_failure url e w)
  | Return r =>
      if is_success r then
        match content r with
        | Undecodable => (Return PyNone, after_failure url UnicodeDecodeError w)
        | Decoded text =>
            match json_loads text with
            | Some v => (Return v, after_request url w)
            | None => (Return PyNone, after_failure url JSONDecodeError w)
            end
        end
      else (Return PyNone, after_failure url (HTTPStatusError (status_code r)) w)
  end.
Proof.
  unfold make_openmeteo_request, try_except, bind, client_get.
  fold (request_for url).
  destruct (net (request_for url)) as [r|e]; [|reflexivity].
  unfold raise_for_status.
  destruct (is_success r); [|reflexivity].
  unfold response_json.
  destruct (content r) as [text|]; [|reflexivity].
  destruct (json_loads text); reflexivity.
Qed.

Lemma make_openmeteo_request_returns (url : pystr) (net : Network) (w : World) :
  exists data w', make_openmeteo_request url net w = (Return data, w').
Proof.
  rewrite make_openmeteo_request_run.
  destruct (net (request_for url)) as [r|e]; [|eauto].
  destruct (is_success r); [|eauto].
  destruct (content r) as [text|]; [|eauto].
  destruct (json_loads text); eauto.
Qed.

Lemma tool_run (url sentence : pystr) (net : Network) (w : World) :
  (data <- make_openmeteo_request url ;;
   if negb (truthy data) then ret sentence else ret (json_dumps data)) net w
  = let (o, w') := make_openmeteo_request url net w in
    match o with
    | Return data => (Return (answer sentence data), w')
    | Raise e => (Raise e, w')
    end.
Proof.
  unfold bind, answer.
  destruct (make_openmeteo_request url net w) as [[data|e] w']; [|reflexivity].
  destruct (negb (truthy data)); reflexivity.
Qed.

Lemma tool_fetch (url sentence : pystr) (net : Network) (w w' : World)
    (data : pyval) :
  make_openmeteo_request url net w = (Return data, w') ->
  (data <- make_openmeteo_request url ;;
   if negb (truthy data) then ret sentence else ret (json_dumps data)) net w
  = (Return (answer sentence data), w').
Proof. intros H. rewrite tool_run, H. reflexivity. Qed.

End Fetcher.

(* ================================================================== *)
(** * The tools *)
(* ================================================================== *)

Section Tools.
Context {F : PyFloat}.

Lemma fetch_requested (url : pystr) (net : Network) (w : World) :
  requested (snd (make_openmeteo_request url net w))
  = requested w ++ [request_for url].
Proof.
  rewrite make_openmeteo_request_run.
  destruct (net (request_for url)) as [r|e]; [|reflexivity].
  destruct (is_success r); [|reflexivity].
  destruct (content r) as [text|]; [|reflexivity].
  destruct (json_loads text); reflexivity.
Qed.

Lemma tool_requested (url sentence : pystr) (net : Network) (w : World) :
  requested (snd ((data <- make_openmeteo_request url ;;
                   if negb (truthy data) then ret sentence
                   else ret (json_dumps data)) net w))
  = requested w ++ [request_for url].
Proof.
  rewrite tool_run. rewrite <- fetch_requested with (net := net).
  destruct (make_openmeteo_request url net w) as [[data|e] w']; reflexivity.
Qed.


(** C3. [make_openmeteo_request] never raises.  When [client.get] raises,
    when the status is an error status (4xx or 5xx), when the body cannot
    be decoded to text or is not JSON, it logs the cause at level ERROR and
    returns [None]; on a success status it returns the decoded body and
    logs nothing. *)
Theorem fetcher_absorbs_failures (url : pystr) (net : Network) (w : World) :
  (exists data w', make_openmeteo_request url net w = (Return data, w'))
  /\ (forall e, net (request_for url) = Raise e ->
        make_openmeteo_request url net w
        = (Return PyNone, after_failure url e w))
  /\ (forall r, net (request_for url) = Return r ->
        (400 <= status_code r <= 599)%Z ->
        make_openmeteo_request url net w
        = (Return PyNone, after_failure url (HTTPStatusError (status_code r)) w))
  /\ (forall r, net (request_for url) = Return r ->
        is_success r = true -> content r = Undecodable ->
        make_openmeteo_request url net w
        = (Return PyNone, after_failure url UnicodeDecodeError w))
  /\ (forall r text, net (request_for url) = Return r ->
        is_success r = true -> content r = Decoded text ->
        json_loads text = None ->
        make_openmeteo_request url net w
        = (Return PyNone, after_failure url JSONDecodeError w))
  /\ (forall r text body, net (request_for url) = Return r ->
        is_success r = true -> content r = Decoded text ->
        json_loads text = Some body ->
        make_openmeteo_request url net w = (Return body, after_request url w)).
Proof.
  split; [apply make_openmeteo_request_returns|].
  rewrite make_openmeteo_request_run.
  repeat split.
  - intros e ->. reflexivity.
  - intros r -> Hs.
    assert (is_success r = false) as ->; [|reflexivity].
    unfold is_success. apply andb_false_iff. right. apply Z.leb_gt. lia.
  - intros r -> -> ->. reflexivity.
  - intros r text -> -> -> ->. reflexivity.
  - intros r text body -> -> -> ->. reflexivity.
Qed.


(** C2. When the fetcher returns [None], each tool returns its own fixed
    sentence, the location tool's ending with the search term; for
    [get_location("Nowhere12345xyz", 5)] that is exactly
    "Unable to fetch location data for Nowhere12345xyz". *)
Theorem tools_failure_sentence (net : Network) (w w' : World) :
  (forall latitude longitude,
      make_openmeteo_request (current_weather_url latitude longitude) net w
      = (Return PyNone, w') ->
      get_current_weather latitude longitude net w
      = (Return (lit "Unable to fetch current weather data for this location."),
         w'))
  /\ (forall latitude longitude days,
      make_openmeteo_request
        (forecast_url latitude longitude (default_arg 7%Z days)) net w
      = (Return PyNone, w') ->
      get_forecast latitude longitude days net w
      = (Return (lit "Unable to fetch forecasted weather data for this location."),
         w'))
  /\ (forall search_term count,
      make_openmeteo_request
        (location_url search_term (default_arg 10%Z count)) net w
      = (Return PyNone, w') ->
      get_location search_term count net w
      = (Return (lit "Unable to fetch location data for " ++ search_term), w'))
  /\ (make_openmeteo_request (location_url (lit "Nowhere12345xyz") 5) net w
      = (Return PyNone, w') ->
      get_location (lit "Nowhere12345xyz") (Some 5%Z) net w
      = (Return (lit "Unable to fetch location data for Nowhere12345xyz"), w')).
Proof.
  repeat split; intros;
    unfold get_current_weather, get_forecast, get_location; cbv zeta;
    (erewrite tool_fetch by eassumption); reflexivity.
Qed.

(** C10. When the fetch succeeds with a falsy body, each tool returns its
    failure sentence and not the serialized body.  The empty object is such
    a body: a 2xx response whose body is the two characters of the empty
    object gets the failure sentence. *)
Theorem tools_falsy_body_is_failure (net : Network) (w : World) :
  (forall data w', truthy data = false ->
     (forall latitude longitude,
         make_openmeteo_request (current_weather_url latitude longitude) net w
         = (Return data, w') ->
         get_current_weather latitude longitude net w
         = (Return
              (lit "Unable to fetch current weather data for this location."),
            w'))
     /\ (forall latitude longitude days,
         make_openmeteo_request
           (forecast_url latitude longitude (default_arg 7%Z days)) net w
         = (Return data, w') ->
         get_forecast latitude longitude days net w
         = (Return
              (lit "Unable to fetch forecasted weather data for this location."),
            w'))
     /\ (forall search_term count,
         make_openmeteo_request
           (location_url search_term (default_arg 10%Z count)) net w
         = (Return data, w') ->
         get_location search_term count net w
         = (Return (lit "Unable to fetch location data for " ++ search_term),
            w')))
  /\ (forall r, is_success r = true -> content r = Decoded (lit "{}") ->
     (forall latitude longitude,
         let url := current_weather_url latitude longitude in
         net (request_for url) = Return r ->
         get_current_weather latitude longitude net w
         = (Return
              (lit "Unable to fetch current weather data for this location."),
            after_request url w))
     /\ (forall latitude longitude days,
         let url := forecast_url latitude longitude (default_arg 7%Z days) in
         net (request_for url) = Return r ->
         get_forecast latitude longitude days net w
         = (Return
              (lit "Unable to fetch forecasted weather data for this location."),
            after_request url w))
     /\ (forall search_term count,
         let url := location_url search_term (default_arg 10%Z count) in
         net (request_for url) = Return r ->
         get_location search_term count net w
         = (Return (lit "Unable to fetch location data for " ++ search_term),
            after_request url w))).
Proof.
  split.
  - intros data w' Hfalsy.
    repeat split; intros;
      unfold get_current_weather, get_forecast, get_location; cbv zeta;
      (erewrite tool_fetch by eassumption); unfold answer; rewrite Hfalsy;
      reflexivity.
  - intros r Hs Hc.
    assert (Hfetch : forall url, net (request_for url) = Return r ->
              make_openmeteo_request url net w
              = (Return (PyDict []), after_request url w)).
    { intros url Hnet. rewrite make_openmeteo_request_run, Hnet, Hs, Hc.
      reflexivity. }
    repeat split; intros; subst url;
      unfold get_current_weather, get_forecast, get_location; cbv zeta;
      (erewrite tool_fetch by (apply Hfetch; eassumption)); reflexivity.
Qed.


(** C9. [get_forecast] without [days] behaves as with [days = 7], so
    [get_forecast(0, 0)] requests a URL whose [forecast_days] parameter is
    7; [get_location] without [count] behaves as with [count = 10] and
    requests a URL whose [count] parameter is 10. *)
Theorem default_days_and_count (net : Network) (w : World) :
  (forall latitude longitude,
      get_forecast latitude longitude None net w
      = get_forecast latitude longitude (Some 7%Z) net w)
  /\ (exists url,
      requested (snd (get_forecast (NInt 0) (NInt 0) None net w))
      = requested w ++ [request_for url]
      /\ query_param "forecast_days" url = Some (lit "7"))
  /\ (forall search_term,
      get_location search_term None net w
      = get_location search_term (Some 10%Z) net w)
  /\ (exists url,
      requested (snd (get_location (lit "Berlin") None net w))
      = requested w ++ [request_for url]
      /\ query_param "count" url = Some (lit "10")).
Proof.
  repeat split.
  - exists (forecast_url (NInt 0) (NInt 0) 7).
    split; [apply tool_requested|reflexivity].
  - exists (location_url (lit "Berlin") 10).
    split; [apply tool_requested|reflexivity].
Qed.

End Tools.

(* ================================================================== *)
(** * URLs *)
(* ================================================================== *)

Section Urls.
Context {F : PyFloat} {L : PyFloatLaws F}.

Lemma int_repr_chars (z : Z) : forallb num_char (int_repr z) = true.
Proof.
  destruct z as [|p|p]; simpl; [reflexivity| |];
    now rewrite (digits_num_chars _ (uint_chars_digits _)).
Qed.

Lemma float_repr_chars (f : pyfloat) : forallb num_char (float_repr f) = true.
Proof.
  destruct (float_classify f) eqn:Hf.
  - now rewrite (repr_nan _ Hf).
  - now rewrite (repr_inf _ Hf).
  - now rewrite (repr_neg_inf _ Hf).
  - now apply float_literal_spec, repr_finite.
Qed.

Lemma format_num_chars (x : pynum) : forallb num_char (format_num x) = true.
Proof. destruct x; [apply int_repr_chars|apply float_repr_chars]. Qed.

Lemma format_num_free (c : N) (x : pynum) :
  num_char c = false -> free_of c (format_num x) = true.
Proof. intros Hc. apply num_chars_free; [exact Hc|apply format_num_chars]. Qed.

Lemma int_repr_free (c : N) (z : Z) :
  num_char c = false -> free_of c (int_repr z) = true.
Proof. intros Hc. apply num_chars_free; [exact Hc|apply int_repr_chars]. Qed.

Lemma split_render_query (params : list (pystr * pystr)) :
  params <> [] -> forallb query_safe params = true ->
  map (partition_on 61) (split_on 38 (render_query params)) = params.
Proof.
  unfold render_query.
  induction params as [|[k v] ps IH]; [congruence|]. intros _.
  cbn [forallb map fst snd]. unfold query_safe at 1. cbn [fst snd].
  rewrite !andb_true_iff. intros [[[Hk38 Hk61] Hv] Hps].
  assert (Hkv : free_of 38 (k ++ 61%N :: v) = true).
  { rewrite free_of_app, Hk38.
    change (free_of 38 (61%N :: v)) with (free_of 38 v). now rewrite Hv. }
  destruct ps as [|kv ps].
  - cbn [join map]. rewrite (split_on_free _ _ Hkv). cbn [map].
    now rewrite (partition_on_app _ _ _ Hk61).
  - change (join [38%N] ((k ++ 61%N :: v) :: map (fun kv0 => fst kv0 ++ 61%N :: snd kv0) (kv :: ps)))
      with ((k ++ 61%N :: v) ++ 38%N :: join [38%N] (map (fun kv0 => fst kv0 ++ 61%N :: snd kv0) (kv :: ps))).
    rewrite (split_on_app _ _ _ Hkv). cbn [map].
    rewrite (partition_on_app _ _ _ Hk61). f_equal.
    apply IH; [discriminate|exact Hps].
Qed.

Lemma query_params_render (path : pystr) (params : list (pystr * pystr)) :
  free_of 63 path = true ->
  params <> [] -> forallb query_safe params = true ->
  url_path (path ++ 63%N :: render_query params) = path
  /\ query_params (path ++ 63%N :: render_query params) = params.
Proof.
  intros Hp Hne Hs. unfold url_path, query_params, url_query.
  rewrite (partition_on_app _ _ _ Hp). split; [reflexivity|].
  now apply split_render_query.
Qed.

Lemma current_weather_url_params (latitude longitude : pynum) :
  let url := current_weather_url latitude longitude in
  url_path url = lit "https://api.open-meteo.com/v1/forecast"
  /\ query_params url
     = [(lit "latitude", format_num latitude);
        (lit "longitude", format_num longitude);
        (lit "current",
         lit "temperature_2m,is_day,showers,cloud_cover,wind_speed_10m,wind_direction_10m,pressure_msl,snowfall,precipitation,relative_humidity_2m,apparent_temperature,rain,weather_code,surface_pressure,wind_gusts_10m")].
Proof.
  apply (query_params_render (lit "https://api.open-meteo.com/v1/forecast")
           [(lit "latitude", format_num latitude);
            (lit "longitude", format_num longitude);
            (lit "current",
             lit "temperature_2m,is_day,showers,cloud_cover,wind_speed_10m,wind_direction_10m,pressure_msl,snowfall,precipitation,relative_humidity_2m,apparent_temperature,rain,weather_code,surface_pressure,wind_gusts_10m")]);
    [reflexivity|discriminate|].
  cbn [forallb]. unfold query_safe. cbn [fst snd].
  rewrite !format_num_free by reflexivity. reflexivity.
Qed.

Lemma forecast_url_params (latitude longitude : pynum) (days : Z) :
  let url := forecast_url latitude longitude days in
  url_path url = lit "https://api.open-meteo.com/v1/forecast"
  /\ query_params url
     = [(lit "latitude", format_num latitude);
        (lit "longitude", format_num longitude);
        (lit "forecast_days", int_repr days);
        (lit "daily",
         lit "temperature_2m_max,temperature_2m_min,precipitation_sum,rain_sum,snowfall_sum,wind_speed_10m_max,wind_gusts_10m_max,wind_direction_10m_dominant,weathercode,sunrise,sunset");
        (lit "timezone", lit "auto")].
Proof.
  apply (query_params_render (lit "https://api.open-meteo.com/v1/forecast")
           [(lit "latitude", format_num latitude);
            (lit "longitude", format_num longitude);
            (lit "forecast_days", int_repr days);
            (lit "daily",
             lit "temperature_2m_max,temperature_2m_min,precipitation_sum,rain_sum,snowfall_sum,wind_speed_10m_max,wind_gusts_10m_max,wind_direction_10m_dominant,weathercode,sunrise,sunset");
            (lit "timezone", lit "auto")]);
    [reflexivity|discriminate|].
  cbn [forallb]. unfold query_safe. cbn [fst snd].
  rewrite !format_num_free, !int_repr_free by reflexivity. reflexivity.
Qed.

End Urls.

(* ================================================================== *)
(** * The URLs the tools request *)
(* ================================================================== *)

Section UrlTheorems.
Context {F : PyFloat}.

(** C5. [get_current_weather] requests the forecast path, and the
    [current] parameter of its URL is the same fifteen fields, in the same
    order, whatever the coordinates. *)
Theorem current_weather_url_fields (L : PyFloatLaws F)
    (latitude longitude : pynum) (net : Network) (w : World) :
  let url := current_weather_url latitude longitude in
  requested (snd (get_current_weather latitude longitude net w))
  = requested w ++ [request_for url]
  /\ url_path url = lit "https://api.open-meteo.com/v1/forecast"
  /\ map fst (query_params url)
     = [lit "latitude"; lit "longitude"; lit "current"]
  /\ query_param "latitude" url = Some (format_num latitude)
  /\ query_param "longitude" url = Some (format_num longitude)
  /\ query_fields "current" url
     = Some [lit "temperature_2m"; lit "is_day"; lit "showers";
             lit "cloud_cover"; lit "wind_speed_10m";
             lit "wind_direction_10m"; lit "pressure_msl"; lit "snowfall";
             lit "precipitation"; lit "relative_humidity_2m";
             lit "apparent_temperature"; lit "rain"; lit "weather_code";
             lit "surface_pressure"; lit "wind_gusts_10m"]
  /\ option_map (@List.length pystr) (query_fields "current" url)
     = Some 15%nat.
Proof.
  intros url. split; [apply tool_requested|].
  destruct (current_weather_url_params latitude longitude) as [Hp Hq].
  fold url in Hp, Hq. split; [exact Hp|].
  unfold query_fields, query_param. rewrite Hq.
  repeat split; reflexivity.
Qed.

(** C4, as amended. [get_forecast] requests the forecast path with
    [forecast_days] set to the number of days, [timezone] set to [auto],
    and [daily] set to the same eleven fields in the same order. *)
Theorem forecast_url_fields (L : PyFloatLaws F)
    (latitude longitude : pynum) (days : Z) (net : Network) (w : World) :
  let url := forecast_url latitude longitude days in
  requested (snd (get_forecast latitude longitude (Some days) net w))
  = requested w ++ [request_for url]
  /\ url_path url = lit "https://api.open-meteo.com/v1/forecast"
  /\ map fst (query_params url)
     = [lit "latitude"; lit "longitude"; lit "forecast_days"; lit "daily";
        lit "timezone"]
  /\ query_param "latitude" url = Some (format_num latitude)
  /\ query_param "longitude" url = Some (format_num longitude)
  /\ query_param "forecast_days" url = Some (int_repr days)
  /\ query_param "timezone" url = Some (lit "auto")
  /\ query_fields "daily" url
     = Some [lit "temperature_2m_max"; lit "temperature_2m_min";
             lit "precipitation_sum"; lit "rain_sum"; lit "snowfall_sum";
             lit "wind_speed_10m_max"; lit "wind_gusts_10m_max";
             lit "wind_direction_10m_dominant"; lit "weathercode";
             lit "sunrise"; lit "sunset"]
  /\ option_map (@List.length pystr) (query_fields "daily" url)
     = Some 11%nat.
Proof.
  intros url. split; [apply tool_requested|].
  destruct (forecast_url_params latitude longitude days) as [Hp Hq].
  fold url in Hp, Hq. split; [exact Hp|].
  unfold query_fields, query_param. rewrite Hq.
  repeat split; reflexivity.
Qed.

End UrlTheorems.

(** C5 at the coordinates of Berlin. *)
Lemma current_weather_url_fields_witness :
  let url := current_weather_url (NFloat (fl "52.52")) (NFloat (fl "13.405")) in
  query_param "latitude" url = Some (lit "52.52")
  /\ option_map (@List.length pystr) (query_fields "current" url)
     = Some 15%nat.
Proof.
  pose proof (current_weather_url_fields TextFloatLaws
                (NFloat (fl "52.52")) (NFloat (fl "13.405"))
                (fun _ => Raise (ConnectError [])) (mkWorld [] []))
    as (_ & _ & _ & Hlat & _ & _ & Hlen).
  split; [exact Hlat|exact Hlen].
Defined.

(** C4 as amended, for a three-day forecast. *)
Lemma forecast_url_fields_witness :
  let url := forecast_url (NFloat (fl "52.52")) (NFloat (fl "13.405")) 3 in
  query_param "forecast_days" url = Some (lit "3")
  /\ query_param "timezone" url = Some (lit "auto")
  /\ option_map (@List.length pystr) (query_fields "daily" url)
     = Some 11%nat.
Proof.
  pose proof (forecast_url_fields TextFloatLaws
                (NFloat (fl "52.52")) (NFloat (fl "13.405")) 3
                (fun _ => Raise (ConnectError [])) (mkWorld [] []))
    as (_ & _ & _ & _ & _ & Hdays & Htz & _ & Hlen).
  repeat split; assumption.
Defined.

(** C4 as stated fails: the [daily] parameter of the URL that
    [get_forecast(0, 0)] requests does not have ten fields. *)
Lemma forecast_daily_fields_not_ten :
  let url := forecast_url (NInt 0) (NInt 0) 7 in
  ~ (url_path url = lit "https://api.open-meteo.com/v1/forecast"
     /\ query_param "forecast_days" url = Some (lit "7")
     /\ query_param "timezone" url = Some (lit "auto")
     /\ exists fields, query_fields "daily" url = Some fields
                       /\ List.length fields = 10%nat).
Proof.
  intros url (_ & _ & _ & fields & Hf & Hlen).
  vm_compute in Hf. injection Hf as <-. discriminate Hlen.
Qed.

(* ================================================================== *)
(** * What the tools return when the fetch succeeds *)
(* ================================================================== *)

Section Success.
Context {F : PyFloat}.

Lemma fetch_body (url : pystr) (net : Network) (w : World) (r : Response)
    (body : pystr) (x : pyval) :
  net (request_for url) = Return r -> is_success r = true ->
  content r = Decoded body -> json_loads body = Some x ->
  make_openmeteo_request url net w = (Return x, after_request url w).
Proof.
  intros Hnet Hs Hc Hx.
  now rewrite make_openmeteo_request_run, Hnet, Hs, Hc, Hx.
Qed.

(** C8, as amended. When the fetcher returns truthy data, each tool
    returns [json.dumps] of that data and nothing else.  With a 2xx
    response whose body is the object of the scenario, and a float type
    that prints 18.3 as it reads it, [get_current_weather] returns that
    same text. *)
Theorem tools_serialize_truthy_data (net : Network) (w : World) :
  (forall data w', truthy data = true ->
     (forall latitude longitude,
         make_openmeteo_request (current_weather_url latitude longitude) net w
         = (Return data, w') ->
         get_current_weather latitude longitude net w
         = (Return (json_dumps data), w'))
     /\ (forall latitude longitude days,
         make_openmeteo_request
           (forecast_url latitude longitude (default_arg 7%Z days)) net w
         = (Return data, w') ->
         get_forecast latitude longitude days net w
         = (Return (json_dumps data), w'))
     /\ (forall search_term count,
         make_openmeteo_request
           (location_url search_term (default_arg 10%Z count)) net w
         = (Return data, w') ->
         get_location search_term count net w
         = (Return (json_dumps data), w')))
  /\ (forall latitude longitude r,
        let url := current_weather_url latitude longitude in
        net (request_for url) = Return r -> is_success r = true ->
        content r = Decoded (qlit "{'current': {'temperature_2m': 18.3}}") ->
        float_classify (float_of_str (lit "18.3")) = FFinite ->
        float_repr (float_of_str (lit "18.3")) = lit "18.3" ->
        get_current_weather latitude longitude net w
        = (Return (qlit "{'current': {'temperature_2m': 18.3}}"),
           after_request url w)).
Proof.
  split.
  - intros data w' Htruthy.
    repeat split; intros;
      unfold get_current_weather, get_forecast, get_location; cbv zeta;
      (erewrite tool_fetch by eassumption); unfold answer; rewrite Htruthy;
      reflexivity.
  - intros latitude longitude r url Hnet Hs Hc Hfin Hrepr.
    assert (Hbody : json_loads (qlit "{'current': {'temperature_2m': 18.3}}")
                    = Some (PyDict [(lit "current",
                              PyDict [(lit "temperature_2m",
                                       PyFloat_ (float_of_str (lit "18.3")))])]))
      by reflexivity.
    unfold get_current_weather. cbv zeta. fold url.
    rewrite (tool_fetch url _ net w _ _
               (fetch_body url net w r _ _ Hnet Hs Hc Hbody)).
    unfold answer. cbn [truthy is_nil negb json_dumps map fst snd join].
    unfold floatstr. rewrite Hfin, Hrepr. reflexivity.
Qed.

(** C1, as amended. When the fetch succeeds with a body of Unicode text
    that decodes to a JSON value (no NaN, which JSON does not have) and
    that value is truthy, the text each tool returns parses back to that
    value. *)
Theorem tools_output_parses_back (L : PyFloatLaws F) (net : Network)
    (w : World) (r : Response) (body : pystr) (x : pyval) :
  is_success r = true -> content r = Decoded body ->
  forallb is_scalar body = true -> json_loads body = Some x ->
  nan_free x = true -> truthy x = true ->
  (forall latitude longitude,
      let url := current_weather_url latitude longitude in
      net (request_for url) = Return r ->
      exists text,
        get_current_weather latitude longitude net w
        = (Return text, after_request url w)
        /\ json_loads text = Some x)
  /\ (forall latitude longitude days,
      let url := forecast_url latitude longitude (default_arg 7%Z days) in
      net (request_for url) = Return r ->
      exists text,
        get_forecast latitude longitude days net w
        = (Return text, after_request url w)
        /\ json_loads text = Some x)
  /\ (forall search_term count,
      let url := location_url search_term (default_arg 10%Z count) in
      net (request_for url) = Return r ->
      exists text,
        get_location search_term count net w
        = (Return text, after_request url w)
        /\ json_loads text = Some x).
Proof.
  intros Hs Hc Hbody Hx Hnan Htruthy.
  pose proof (json_loads_wf body x Hbody Hx Hnan) as Hwf.
  repeat split; intros; exists (json_dumps x);
    (split; [|now apply json_loads_dumps]);
    unfold get_current_weather, get_forecast, get_location; cbv zeta;
    fold url;
    rewrite (tool_fetch url _ net w _ _
               (fetch_body url net w r _ _ H Hs Hc Hx));
    unfold answer; rewrite Htruthy; reflexivity.
Qed.

End Success.

(* ================================================================== *)
(** * Runs on concrete inputs *)
(* ================================================================== *)

(** C8 at the scenario's inputs. *)
Lemma tools_serialize_truthy_data_witness :
  get_current_weather (NFloat (fl "52.52")) (NFloat (fl "13.405"))
    (fun _ => Return (mkResponse 200
                (Decoded (qlit "{'current': {'temperature_2m': 18.3}}"))))
    (mkWorld [] [])
  = (Return (qlit "{'current': {'temperature_2m': 18.3}}"),
     after_request
       (current_weather_url (NFloat (fl "52.52")) (NFloat (fl "13.405")))
       (mkWorld [] [])).
Proof.
  apply (proj2 (tools_serialize_truthy_data _ _)) with
    (r := mkResponse 200
            (Decoded (qlit "{'current': {'temperature_2m': 18.3}}")));
    reflexivity.
Defined.

(** C1 at the scenario's inputs. *)
Lemma tools_output_parses_back_witness :
  exists text,
    get_current_weather (NFloat (fl "52.52")) (NFloat (fl "13.405"))
      (fun _ => Return (mkResponse 200
                  (Decoded (qlit "{'current': {'temperature_2m': 18.3}}"))))
      (mkWorld [] [])
    = (Return text,
       after_request
         (current_weather_url (NFloat (fl "52.52")) (NFloat (fl "13.405")))
         (mkWorld [] []))
    /\ json_loads text
       = Some (PyDict [(lit "current",
                 PyDict [(lit "temperature_2m", PyFloat_ (fl "18.3"))])]).
Proof.
  refine (proj1 (tools_output_parses_back TextFloatLaws
            (fun _ => Return (mkResponse 200
               (Decoded (qlit "{'current': {'temperature_2m': 18.3}}"))))
            (mkWorld [] [])
            (mkResponse 200
               (Decoded (qlit "{'current': {'temperature_2m': 18.3}}")))
            (qlit "{'current': {'temperature_2m': 18.3}}")
            (PyDict [(lit "current",
               PyDict [(lit "temperature_2m", PyFloat_ (fl "18.3"))])])
            _ _ _ _ _ _) (NFloat (fl "52.52")) (NFloat (fl "13.405")) _);
    reflexivity.
Defined.

(** C1 as stated fails.  A 2xx response with the body of the empty object
    is a successful fetch of a well-formed JSON value, yet what
    [get_current_weather] then returns does not parse back to it. *)
Lemma empty_object_does_not_parse_back :
  let net := fun _ : Request =>
               Return (mkResponse 200 (Decoded (lit "{}"))) in
  let w := mkWorld [] [] in
  forallb is_scalar (lit "{}") = true
  /\ json_loads (lit "{}") = Some (PyDict [])
  /\ nan_free (PyDict []) = true
  /\ ~ (exists text w',
          get_current_weather (NInt 0) (NInt 0) net w = (Return text, w')
          /\ json_loads text = Some (PyDict [])).
Proof.
  intros net w. do 3 (split; [reflexivity|]).
  intros (text & w' & Hrun & Hparse).
  vm_compute in Hrun. injection Hrun as <- _.
  vm_compute in Hparse. discriminate Hparse.
Qed.

(** C8 as stated fails.  With the same response the fetcher returns data,
    the empty dict, and [get_current_weather] does not return its
    serialization. *)
Lemma empty_object_is_not_serialized :
  let net := fun _ : Request =>
               Return (mkResponse 200 (Decoded (lit "{}"))) in
  let w := mkWorld [] [] in
  let url := current_weather_url (NInt 0) (NInt 0) in
  make_openmeteo_request url net w = (Return (PyDict []), after_request url w)
  /\ json_dumps (PyDict []) = lit "{}"
  /\ get_current_weather (NInt 0) (NInt 0) net w
     = (Return (lit "Unable to fetch current weather data for this location."),
        after_request url w)
  /\ fst (get_current_weather (NInt 0) (NInt 0) net w)
     <> Return (json_dumps (PyDict [])).
Proof.
  intros net w url. repeat split; try reflexivity.
  intros H. vm_compute in H. discriminate H.
Qed.

(** C3 on three answers of the network: a refused connection, a 500, and a
    200 with a JSON body. *)
Lemma fetcher_absorbs_failures_witness :
  let url := lit "https://api.open-meteo.com/v1/forecast" in
  let w := mkWorld [] [] in
  make_openmeteo_request url
    (fun _ => Raise (ConnectError (lit "connection refused"))) w
  = (Return PyNone,
     after_failure url (ConnectError (lit "connection refused")) w)
  /\ make_openmeteo_request url
       (fun _ => Return (mkResponse 500 (Decoded (lit "oops")))) w
     = (Return PyNone, after_failure url (HTTPStatusError 500) w)
  /\ make_openmeteo_request url
       (fun _ => Return (mkResponse 200 (Decoded (lit "[1, 2]")))) w
     = (Return (PyList [PyInt 1; PyInt 2]), after_request url w).
Proof.
  intros url w. split; [|split].
  - apply (proj1 (proj2 (fetcher_absorbs_failures url _ w))). reflexivity.
  - apply (proj1 (proj2 (proj2 (fetcher_absorbs_failures url _ w)))
             (mkResponse 500 (Decoded (lit "oops")))); [reflexivity|simpl; lia].
  - apply (proj2 (proj2 (proj2 (proj2 (proj2
             (fetcher_absorbs_failures url _ w)))))
             (mkResponse 200 (Decoded (lit "[1, 2]"))) (lit "[1, 2]"));
      reflexivity.
Defined.

(** C2 on a refused connection. *)
Lemma tools_failure_sentence_witness :
  let net := fun _ : Request => Raise (ConnectError (lit "connection refused")) in
  let w := mkWorld [] [] in
  get_location (lit "Nowhere12345xyz") (Some 5%Z) net w
  = (Return (lit "Unable to fetch location data for Nowhere12345xyz"),
     after_failure (location_url (lit "Nowhere12345xyz") 5)
       (ConnectError (lit "connection refused")) w).
Proof.
  intros net w.
  apply (proj2 (proj2 (proj2 (tools_failure_sentence net w _)))).
  reflexivity.
Defined.

(** C10 on a 200 whose body is the empty object. *)
Lemma tools_falsy_body_is_failure_witness :
  let net := fun _ : Request =>
               Return (mkResponse 200 (Decoded (lit "{}"))) in
  let w := mkWorld [] [] in
  get_forecast (NFloat (fl "52.52")) (NFloat (fl "13.405")) None net w
  = (Return (lit "Unable to fetch forecasted weather data for this location."),
     after_request
       (forecast_url (NFloat (fl "52.52")) (NFloat (fl "13.405")) 7) w).
Proof.
  intros net w.
  apply (proj1 (proj2 (proj2 (tools_falsy_body_is_failure net w)
                         (mkResponse 200 (Decoded (lit "{}")))
                         eq_refl eq_refl)));
    reflexivity.
Defined.

(* ================================================================== *)
(** * More about the tools: requests, log and answers *)
(* ================================================================== *)

Section CallFacts.
Context {F : PyFloat}.

Lemma run_call_run (c : tool_call) (net : Network) (w : World) :
  run_call c net w
  = let (o, w') := make_openmeteo_request (call_url c) net w in
    match o with
    | Return data => (Return (answer (call_sentence c) data), w')
    | Raise e => (Raise e, w')
    end.
Proof. destruct c; apply tool_run. Qed.

(** The fetch of a call, by what the network answers: the decoded value
    and no log record, or [None] and the record of one exception. *)
Lemma fetch_cases (url : pystr) (net : Network) (w : World) :
  (exists x, answers_json (net (request_for url)) x
             /\ make_openmeteo_request url net w
                = (Return x, after_request url w))
  \/ (exists e, (forall x, ~ answers_json (net (request_for url)) x)
                /\ make_openmeteo_request url net w
                   = (Return PyNone, after_failure url e w)).
Proof.
  rewrite make_openmeteo_request_run.
  destruct (net (request_for url)) as [r|e] eqn:Hnet.
  - destruct (is_success r) eqn:Hs.
    + destruct (content r) as [text|] eqn:Hc.
      * destruct (json_loads text) as [x|] eqn:Hx.
        -- left. exists x. split; [|reflexivity]. exists r, text. auto.
        -- right. exists JSONDecodeError. split; [|reflexivity].
           intros x (r' & text' & [= <-] & _ & Hc' & Hx'). congruence.
      * right. exists UnicodeDecodeError. split; [|reflexivity].
        intros x (r' & text' & [= <-] & _ & Hc' & _). congruence.
    + right. exists (HTTPStatusError (status_code r)). split; [|reflexivity].
      intros x (r' & text' & [= <-] & Hs' & _). congruence.
  - right. exists e. split; [|reflexivity].
    intros x (r' & text' & Hr & _). discriminate.
Qed.



(** X3. The answer to a failed fetch does not tell how it failed: whenever
    the network gives no success status with a JSON body (an exception of
    any kind, any other status, a body that is not text or not JSON), the
    answer is the same sentence, whatever the history. *)
Theorem failures_look_alike (c : tool_call) (net1 net2 : Network)
    (w1 w2 : World) :
  (forall x, ~ answers_json (net1 (request_for (call_url c))) x) ->
  (forall x, ~ answers_json (net2 (request_for (call_url c))) x) ->
  fst (run_call c net1 w1) = fst (run_call c net2 w2)
  /\ fst (run_call c net1 w1) = Return (call_sentence c).
Proof.
  intros H1 H2.
  assert (Hfail : forall net w,
            (forall x, ~ answers_json (net (request_for (call_url c))) x) ->
            fst (run_call c net w) = Return (call_sentence c)).
  { intros net w Hno. rewrite run_call_run.
    destruct (fetch_cases (call_url c) net w)
      as [(x & Hx & _)|(e & _ & ->)]; [now apply Hno in Hx|reflexivity]. }
  now rewrite (Hfail net1 w1 H1), (Hfail net2 w2 H2).
Qed.


End CallFacts.

(** X3 on a 503 and a read timeout. *)
Lemma failures_look_alike_witness :
  let c := Forecast (NFloat (fl "52.52")) (NFloat (fl "13.405")) (Some 3%Z) in
  let net1 := fun _ : Request =>
                Return (mkResponse 503 (Decoded (lit "unavailable"))) in
  let net2 := fun _ : Request =>
                Raise (TimeoutException (lit "read timed out")) in
  fst (run_call c net1 (mkWorld [] []))
  = fst (run_call c net2 (mkWorld [] []))
  /\ fst (run_call c net1 (mkWorld [] []))
     = Return (lit "Unable to fetch forecasted weather data for this location.").
Proof.
  intros c net1 net2.
  apply (failures_look_alike c net1 net2 (mkWorld [] []) (mkWorld [] []));
    intros x (r & text & Hr & Hs & _).
  - injection Hr as <-. discriminate Hs.
  - discriminate Hr.
Defined.

(* ================================================================== *)
(** * More about the URLs: what a search term and a number can do *)
(* ================================================================== *)

Section UrlFacts.
Context {F : PyFloat}.






End UrlFacts.

Section NumberFacts.
Context {F : PyFloat} {L : PyFloatLaws F}.



End NumberFacts.



(* ================================================================== *)
(** * More about the answers: their characters and what they tell *)
(* ================================================================== *)

Section Printable.
Context {F : PyFloat} {L : PyFloatLaws F}.













End Printable.

Section Status.
Context {F : PyFloat}.

(** X9. Only a status from 200 to 299 counts.  Any other status, a
    redirect included, gives the failure sentence and one ERROR record
    with the status error, whatever the body of the response. *)
Theorem other_status_is_failure (c : tool_call) (net : Network) (w : World)
    (r : Response) :
  net (request_for (call_url c)) = Return r ->
  ~ (200 <= status_code r <= 299)%Z ->
  run_call c net w
  = (Return (call_sentence c),
     after_failure (call_url c) (HTTPStatusError (status_code r)) w).
Proof.
  intros Hnet Hst. rewrite run_call_run, make_openmeteo_request_run, Hnet.
  assert (is_success r = false) as ->; [|reflexivity].
  unfold is_success. apply andb_false_iff. rewrite Z.leb_gt, Z.leb_gt. lia.
Qed.

End Status.




(** X9 for a redirect. *)
Lemma other_status_is_failure_witness :
  fst (run_call (CurrentWeather (NInt 0) (NInt 0))
         (fun _ => Return (mkResponse 301 (Decoded (lit "{}"))))
         (mkWorld [] []))
  = Return (lit "Unable to fetch current weather data for this location.").
Proof.
  rewrite (other_status_is_failure (CurrentWeather (NInt 0) (NInt 0))
             (fun _ => Return (mkResponse 301 (Decoded (lit "{}"))))
             (mkWorld [] []) (mkResponse 301 (Decoded (lit "{}"))));
    [reflexivity|reflexivity|simpl; lia].
Defined.
